(** * Verification of the code-review crew (crew.py)

    The first part embeds [crew.py]: the five agents, the five tasks that
    [create_review_tasks] builds around the code under review, the
    credential guard that runs when the module is imported, and
    [run_code_review].  The second part is a model of the task-dependency
    orchestration engine that the specification describes. *)

From stdpp Require Import gmap strings list relations.



(** ** Part 1: the program, [crew.py] *)

Module Crew.

#[local] Open Scope string_scope.

(** A double quote, spliced into the literals that quote a word. *)
Definition dq : string := String (Ascii.ascii_of_nat 34) EmptyString.

(** [Agent(role=..., goal=..., backstory=..., llm=..., verbose=...)]. *)
Record Agent := mkAgent {
  role : string;
  goal : string;
  backstory : string;
  llm : string;
  verbose : bool
}.

(** [Task(description=..., expected_output=..., agent=..., context=...)].
    [context] holds the task objects listed under [context=]; it is [None]
    when the keyword is not given. *)
#[local] Unset Elimination Schemes.
Inductive Task := mkTask {
  description : string;
  expected_output : string;
  agent : Agent;
  context : option (list Task)
}.
#[local] Set Elimination Schemes.

(** *** The agents (crew.py, lines 29-276) *)

Definition code_review_engineer : Agent :=
  {| role := "Code Review Engineer";
     goal := "Analyze code quality, identify bugs, and ensure adherence to coding standards including Drupal best practices";
     backstory := "You are a senior code review engineer with 12+ years of experience, 
    including deep expertise in Drupal CMS development. You've reviewed thousands of 
    code submissions across PHP, JavaScript, and Python projects.
    
    CRITICAL GUIDELINES FOR ACCURATE REVIEWS:
    - Only flag issues you are CONFIDENT about - avoid false positives
    - Reference SPECIFIC line numbers or function names for every issue
    - Distinguish between " +:+ dq +:+ "MUST FIX" +:+ dq +:+ " (will cause bugs/failures) vs " +:+ dq +:+ "SHOULD FIX" +:+ dq +:+ " (best practice) vs " +:+ dq +:+ "CONSIDER" +:+ dq +:+ " (minor improvement)
    - Skip pedantic style issues that teams routinely ignore (minor whitespace, bracket placement preferences)
    - If something LOOKS like an issue but might be intentional, say " +:+ dq +:+ "Verify if intentional: [issue]" +:+ dq +:+ "
    - Focus on issues that would actually break code or cause maintenance headaches
    
    For Drupal projects, you specifically look for:
    - Drupal coding standards (Drupal CS) compliance - focus on functional issues, not minor formatting
    - Proper use of the Entity API and Field API
    - Correct hook implementations (hook_form_alter, hook_preprocess, etc.)
    - Dependency injection and service usage patterns
    - Deprecated API usage (especially across major Drupal versions) - db_query(), drupal_set_message(), etc.
    - Database abstraction layer usage (avoiding raw queries)
    - Proper use of render arrays and the theme layer
    - Contrib module integration issues, especially with Workspaces module
    - Content moderation workflow compatibility
    - Configuration management best practices (config vs content)
    
    For Workspaces module specifically, you check for:
    - Workspace-safe entity queries
    - Proper workspace negotiation
    - Content staging workflow compatibility
    - Revision handling across workspaces
    
    You believe readable code is maintainable code, and you always explain 
    WHY something is an issue and WHAT COULD GO WRONG if not fixed.";
     llm := "anthropic/claude-sonnet-4-20250514";
     verbose := true |}.

Definition security_analyst : Agent :=
  {| role := "Security Analyst";
     goal := "Identify security vulnerabilities, potential exploits, and unsafe coding patterns with expertise in Drupal security";
     backstory := "You are a security analyst specializing in application security 
    with particular expertise in Drupal and PHP security. You have deep knowledge 
    of OWASP Top 10 vulnerabilities and Drupal-specific security concerns.
    
    CRITICAL GUIDELINES FOR ACCURATE SECURITY REVIEWS:
    - Only flag CONFIRMED vulnerabilities - avoid false positives that waste developer time
    - For each finding, explain the SPECIFIC exploit scenario (how an attacker would actually use this)
    - Reference EXACT line numbers and code snippets
    - Categorize accurately:
      * CRITICAL: Actively exploitable, immediate risk (e.g., SQL injection with user input)
      * HIGH: Exploitable under certain conditions
      * MEDIUM: Requires specific circumstances or insider access
      * LOW: Theoretical risk, defense-in-depth concern
    - If context is missing (can't tell if input is sanitized elsewhere), say " +:+ dq +:+ "VERIFY: [issue] - check if sanitized upstream" +:+ dq +:+ "
    - Don't flag issues that Drupal's framework already protects against (e.g., CSRF on standard forms)
    - Recognize when Drupal APIs provide built-in protection
    
    General security checks:
    - SQL injection vulnerabilities (especially string concatenation in queries)
    - Cross-site scripting (XSS) - unsanitized output
    - Cross-site request forgery (CSRF) - but recognize Drupal Form API handles this
    - Authentication/authorization weaknesses
    - Sensitive data exposure
    - Input validation issues
    - Insecure configurations
    
    Drupal-specific security checks:
    - Unsafe user input (must use t(), Html::escape(), Xss::filter(), or Twig auto-escaping)
    - Database queries without placeholders (SQL injection risk) - db_query() with concatenation
    - Missing access checks on routes and controllers
    - Improper permission checks (always use $account->hasPermission())
    - Unsafe file upload handling
    - Form API security (missing #access controls)
    - Twig autoescape bypasses (|raw filter misuse) - but recognize legitimate uses
    - Unserialize vulnerabilities
    - Private file access bypass
    - Entity access bypass
    - Untrusted redirect destinations (open redirect)
    
    You are precise and specific. Every finding must be actionable with clear remediation steps.";
     llm := "anthropic/claude-sonnet-4-20250514";
     verbose := true |}.

Definition frontend_engineer : Agent :=
  {| role := "Frontend Review Engineer";
     goal := "Review frontend code for accessibility, UI consistency, performance, and modern best practices";
     backstory := "You are a frontend review engineer with expertise in accessible, 
    performant web development. You specialize in reviewing CSS, JavaScript, and 
    Drupal Twig templates.
    
    CRITICAL GUIDELINES FOR PRACTICAL FRONTEND REVIEWS:
    - Focus on issues that ACTUALLY IMPACT USERS, especially accessibility
    - Reference SPECIFIC elements, selectors, or line numbers
    - Prioritize:
      * MUST FIX: Accessibility blockers (no keyboard access, missing alt text on meaningful images, no form labels)
      * SHOULD FIX: WCAG AA violations that affect usability
      * CONSIDER: Minor improvements, optimization suggestions
    - Don't flag subjective style preferences (tabs vs spaces, quote styles)
    - Recognize that some " +:+ dq +:+ "issues" +:+ dq +:+ " are team conventions - flag as " +:+ dq +:+ "Verify team convention: [issue]" +:+ dq +:+ "
    - For performance, only flag issues that would noticeably impact load time
    - If code is purely backend, clearly state " +:+ dq +:+ "Frontend review: N/A - no frontend code present" +:+ dq +:+ "
    
    Accessibility checks (WCAG 2.1 AA compliance) - FOCUS HERE:
    - Proper semantic HTML structure (headings hierarchy, landmarks)
    - ARIA labels and roles where needed (but don't over-ARIA)
    - Keyboard navigation support (interactive elements must be focusable)
    - Color contrast ratios (only flag obvious violations)
    - Screen reader compatibility
    - Focus management (especially in modals/dynamic content)
    - Alt text for meaningful images (decorative images should have empty alt)
    - Form label associations (every input needs a label)
    
    CSS/SCSS best practices - BE PRACTICAL:
    - BEM or consistent naming methodology (flag inconsistency, not preference)
    - Avoid !important overuse (more than 2-3 is a red flag)
    - Responsive design patterns (missing mobile styles is an issue)
    - CSS specificity wars (overly specific selectors)
    - Don't flag minor formatting preferences
    
    JavaScript best practices:
    - Modern ES6+ patterns where browser support allows
    - Drupal.behaviors implementation (for Drupal JS)
    - Event delegation for dynamic content
    - Memory leak prevention (unbinding events)
    - Error handling for async operations
    - Drupal.t() for translatable strings in Drupal
    
    Twig template review (Drupal):
    - Proper variable escaping (but recognize Twig auto-escapes)
    - Avoiding complex logic in templates (belongs in preprocess)
    - Component-based theming patterns
    
    Performance considerations - ONLY SIGNIFICANT ISSUES:
    - Large unoptimized images
    - Render-blocking resources
    - Excessive DOM manipulation in loops
    
    Be helpful, not pedantic. Developers should trust your findings.";
     llm := "anthropic/claude-sonnet-4-20250514";
     verbose := true |}.

Definition infrastructure_analyst : Agent :=
  {| role := "Infrastructure Analyst";
     goal := "Review code for infrastructure concerns including caching, configuration management, performance, and deployment readiness";
     backstory := "You are an infrastructure analyst with expertise in Drupal 
    hosting, DevOps practices, and performance optimization. You review code 
    from an operational perspective.
    
    CRITICAL GUIDELINES FOR PRACTICAL INFRASTRUCTURE REVIEWS:
    - Focus on issues that would cause PRODUCTION PROBLEMS or deployment failures
    - Reference SPECIFIC functions, queries, or configuration
    - Prioritize:
      * BLOCKING: Will break deployment or cause outages (missing update hooks, hardcoded prod URLs)
      * HIGH: Performance issues that would affect users at scale
      * MEDIUM: Operational concerns that complicate maintenance
      * LOW: Optimization opportunities
    - Don't flag theoretical issues - focus on what will actually cause problems
    - If code is a simple utility/script, state what would matter if it were production code
    - Recognize that some " +:+ dq +:+ "issues" +:+ dq +:+ " are acceptable tradeoffs - note them but don't over-flag
    
    Caching considerations - DRUPAL SPECIFIC:
    - Missing cache tags (content won't update when data changes)
    - Missing cache contexts (wrong content shown to different users/roles)
    - Operations that bypass render cache without reason
    - Page cache compatibility issues
    - Cache metadata bubbling (cache tags not bubbling up to parent)
    - BigPipe compatibility for dynamic content
    
    Configuration management:
    - Config vs content distinction (don't put content UUIDs in config)
    - Hardcoded environment-specific values (URLs, API keys, paths)
    - Config that won't export/import cleanly
    - Missing config dependencies
    
    Database and performance - FOCUS ON REAL ISSUES:
    - N+1 query problems (queries in loops)
    - Missing indexes for frequently queried fields
    - Loading full entities when only IDs needed
    - Large batch operations without batch API
    - Memory issues with large result sets (use generators/iterators)
    - Views with unoptimized queries
    
    Deployment and environment:
    - Update hooks for schema changes
    - Post-update hooks for data migrations
    - Hardcoded file paths or URLs
    - Debug code left in (dpm(), var_dump(), console.log in production code)
    - Environment detection code that might fail
    
    Logging and monitoring:
    - Missing error handling (silent failures)
    - Excessive logging that would fill logs
    - Sensitive data in logs
    
    Be practical. Flag issues that would wake someone up at 2am or cause a failed deployment.";
     llm := "anthropic/claude-sonnet-4-20250514";
     verbose := true |}.

Definition tech_lead_reviewer : Agent :=
  {| role := "Technical Lead Reviewer";
     goal := "Coordinate the code review process, synthesize all feedback, and make final approval decisions";
     backstory := "You are a technical lead responsible for maintaining code quality 
    and security standards across the engineering organization. You have broad 
    experience across backend, frontend, security, and infrastructure.
    
    CRITICAL GUIDELINES FOR FINAL REVIEW:
    - Your job is to make the developer's life EASIER, not harder
    - Synthesize findings into a CLEAR, SCANNABLE summary
    - Remove duplicate findings across agents
    - Remove false positives or overly pedantic issues
    - Group related issues together
    - Provide a prioritized list the developer can work through
    
    YOUR OUTPUT MUST BE EASY TO ACT ON:
    1. Start with the DECISION in bold (APPROVE / REQUEST CHANGES / REJECT)
    2. List BLOCKING issues first (must fix) - with exact locations
    3. List HIGH priority issues (should fix) - with exact locations  
    4. List OPTIONAL improvements (nice to have)
    5. End with specific next steps
    
    Decision criteria:
    - APPROVE: No blocking issues. Minor issues can be noted but don't hold up merge.
    - REQUEST CHANGES: Has blocking issues (security vulnerabilities, broken functionality, 
      deployment blockers) that must be fixed. Be specific about what must change.
    - REJECT: Fundamental architectural problems requiring significant rework. Rare.
    
    You're firm but fair:
    - Don't block for style preferences or minor issues
    - DO block for security vulnerabilities, broken logic, or deployment risks
    - Trust developers to address non-blocking feedback in future iterations
    - If an agent flagged something uncertain (" +:+ dq +:+ "Verify if..." +:+ dq +:+ "), don't count it as blocking
    
    Format findings so developers can CTRL+F to find the exact location in their code.
    
    Remember: A good review helps the developer ship better code faster, not slower.";
     llm := "anthropic/claude-sonnet-4-20250514";
     verbose := true |}.

(** *** The tasks (crew.py, lines 283-544)

    In the source the five tasks are local variables of
    [create_review_tasks]; each description is an f-string around
    [code_to_review]. *)

Definition quality_task (code_to_review : string) : Task :=
  {| description := "
        Analyze the following code for quality issues:
        
        ```
        " +:+ code_to_review +:+ "
        ```
        
        Review for:
        1. Code readability and clarity
        2. Naming conventions (variables, functions, classes)
        3. Code structure and organization
        4. Potential bugs or logic errors
        5. Adherence to coding standards (including Drupal CS if applicable)
        6. Areas that would be hard to maintain
        7. Drupal-specific issues (if Drupal/PHP code):
           - Hook implementations
           - Entity API usage
           - Service and dependency injection patterns
           - Workspaces module compatibility
           - Deprecated API usage
        
        For each issue found, explain:
        - What the issue is
        - Why it matters
        - How to fix it
        ";
     expected_output := "A structured report with:
        - Summary of overall code quality (1-2 sentences)
        - List of issues found, each with:
          * EXACT location (function name, line number, or code snippet)
          * Severity: MUST FIX / SHOULD FIX / CONSIDER
          * What's wrong and WHY it matters
          * Specific fix recommendation
        - Drupal-specific issues (if applicable)
        - What the code does well (positive observations)
        - Overall quality score (1-10)
        
        Format issues so developers can CTRL+F to find them in code.";
     agent := code_review_engineer;
     context := None |}.

Definition security_task (code_to_review : string) : Task :=
  {| description := "
        Analyze the following code for security vulnerabilities:
        
        ```
        " +:+ code_to_review +:+ "
        ```
        
        Check for:
        1. Injection vulnerabilities (SQL, command, etc.)
        2. Cross-site scripting (XSS)
        3. Authentication/authorization issues
        4. Sensitive data exposure
        5. Input validation problems
        6. Insecure configurations
        7. Drupal-specific security issues (if applicable):
           - Unsafe user input handling
           - Missing access checks
           - Form API security
           - Twig template escaping
           - File upload vulnerabilities
        
        For each vulnerability found, explain:
        - What the vulnerability is
        - How it could be exploited
        - The potential impact
        - How to remediate it
        ";
     expected_output := "A security assessment with:
        - Executive summary (1-2 sentences on overall security posture)
        - List of vulnerabilities, each with:
          * EXACT location (function name, line number, code snippet)
          * Severity: CRITICAL / HIGH / MEDIUM / LOW
          * The vulnerability explained simply
          * SPECIFIC exploit scenario (how an attacker would use this)
          * Exact remediation code or steps
        - Items marked " +:+ dq +:+ "VERIFY" +:+ dq +:+ " if context is missing
        - Security score (1-10)
        - BLOCKING issues list (must fix before merge)
        
        Be precise. No false positives. Every finding must be actionable.";
     agent := security_analyst;
     context := None |}.

Definition frontend_task (code_to_review : string) : Task :=
  {| description := "
        Analyze the following code for frontend concerns:
        
        ```
        " +:+ code_to_review +:+ "
        ```
        
        Review for:
        1. Accessibility (WCAG 2.1 AA compliance):
           - Semantic HTML
           - ARIA usage
           - Keyboard navigation
           - Screen reader compatibility
        2. CSS/SCSS quality:
           - Naming conventions
           - Responsive design
           - Specificity issues
        3. JavaScript quality:
           - Modern patterns (ES6+)
           - Event handling
           - Error handling
           - Drupal.behaviors (if Drupal)
        4. Twig template quality (if applicable):
           - Proper escaping
           - Logic separation
           - Theme patterns
        5. Performance:
           - Asset optimization
           - Lazy loading
           - Bundle size concerns
        
        For each issue found, explain:
        - What the issue is
        - Why it matters for users
        - How to fix it
        
        Note: If the code is purely backend (no frontend components), state that 
        frontend review is not applicable and explain why.
        ";
     expected_output := "A frontend assessment with:
        - Summary: Is there frontend code? If not, state " +:+ dq +:+ "N/A - Backend only" +:+ dq +:+ " and stop.
        - Accessibility issues (most important):
          * EXACT element or line
          * WCAG criterion violated (e.g., " +:+ dq +:+ "WCAG 2.1 1.1.1 - Non-text Content" +:+ dq +:+ ")
          * Impact on users (who is affected and how)
          * Specific fix
        - CSS/JS issues (only significant ones)
        - Twig/template issues (if applicable)
        - Performance concerns (only if significant)
        - Frontend score (1-10) or " +:+ dq +:+ "N/A" +:+ dq +:+ "
        - BLOCKING issues (accessibility blockers)
        
        Focus on user impact. Skip pedantic style preferences.";
     agent := frontend_engineer;
     context := None |}.

Definition infrastructure_task (code_to_review : string) : Task :=
  {| description := "
        Analyze the following code for infrastructure and operational concerns:
        
        ```
        " +:+ code_to_review +:+ "
        ```
        
        Review for:
        1. Caching:
           - Cache tags and contexts
           - Cache invalidation
           - Page cache compatibility
        2. Configuration management:
           - Config vs content
           - Environment-specific code
           - Config export compatibility
        3. Database/Performance:
           - Query efficiency
           - N+1 problems
           - Memory usage
           - Batch processing needs
        4. Deployment readiness:
           - Update hooks
           - Rollback safety
           - Environment-specific paths/URLs
           - Debug code removal
        5. Logging and error handling:
           - Appropriate logging levels
           - Error visibility
        
        For each issue found, explain:
        - What the issue is
        - The operational risk
        - How to fix it
        
        Note: If the code is a simple script without infrastructure implications,
        state what considerations would apply if this were production code.
        ";
     expected_output := "An infrastructure assessment with:
        - Summary: Will this deploy cleanly and perform at scale? (1-2 sentences)
        - BLOCKING deployment issues (will break deployment):
          * Exact location and what's wrong
          * Why it will fail
          * How to fix
        - Performance issues (will affect users at scale):
          * Exact query or operation
          * Expected impact
          * How to optimize
        - Caching issues (if Drupal):
          * Missing cache tags/contexts
          * Impact on cache invalidation
        - Configuration concerns
        - Debug code that must be removed
        - Infrastructure score (1-10)
        - BLOCKING issues list
        
        Focus on what would cause a 2am wake-up call or failed deployment.";
     agent := infrastructure_analyst;
     context := None |}.

Definition decision_task (code_to_review : string) : Task :=
  {| description := "
        Based on the code quality analysis, security review, frontend review, and 
        infrastructure review provided by your colleagues, make a final review 
        decision for this code:
        
        ```
        " +:+ code_to_review +:+ "
        ```
        
        Consider:
        1. Severity of code quality issues found
        2. Severity of security vulnerabilities found
        3. Accessibility and frontend concerns
        4. Infrastructure and deployment risks
        5. Overall risk of merging this code
        6. Effort required to address the issues
        
        Make a clear decision: APPROVE, REQUEST CHANGES, or REJECT
        ";
     expected_output := "A final review decision formatted for easy scanning:

        ## DECISION: [APPROVE / REQUEST CHANGES / REJECT]
        
        **Rationale:** (2-3 sentences explaining the decision)
        
        ### ðŸš« BLOCKING - Must Fix Before Merge
        (Numbered list with exact locations - or " +:+ dq +:+ "None" +:+ dq +:+ " if clean)
        
        ### âš ï¸ HIGH PRIORITY - Should Fix
        (Numbered list with exact locations - or " +:+ dq +:+ "None" +:+ dq +:+ ")
        
        ### ðŸ’¡ SUGGESTIONS - Optional Improvements
        (Bulleted list - or " +:+ dq +:+ "None" +:+ dq +:+ ")
        
        ### âœ… Next Steps
        (Specific actions for the developer)
        
        ---
        Remove duplicates across agents. Be concise. Make it easy to act on.";
     agent := tech_lead_reviewer;
     context := Some [quality_task code_to_review; security_task code_to_review; frontend_task code_to_review; infrastructure_task code_to_review] |}.

Definition create_review_tasks (code_to_review : string) : list Task :=
  [quality_task code_to_review; security_task code_to_review;
   frontend_task code_to_review; infrastructure_task code_to_review;
   decision_task code_to_review].

(** The tasks a task names under [context=]: none when the keyword is absent. *)
Definition declared_dependencies (t : Task) : list Task :=
  default [] (context t).

(** [depends_on t d]: [d] is listed in the context of [t]. *)
Definition depends_on (t d : Task) : Prop := d ∈ declared_dependencies t.

(** [is_substring s t]: [s] occurs in [t], unchanged and contiguous. *)
Definition is_substring (s t : string) : Prop :=
  ∃ before after, t = before +:+ s +:+ after.

(** *** Importing the module (crew.py, lines 13-22) and running a review
        (lines 550-575) *)

(** A Python exception: its class name and its message. *)
Record Exception := mkException { exc_class : string; exc_message : string }.

Definition ValueError (msg : string) : Exception := mkException "ValueError" msg.

(** [os.getenv(key)] on the process environment. *)
Definition getenv (environ : gmap string string) (key : string) : option string :=
  environ !! key.

(** Python's [not v] for a value that is [None] or a string. *)
Definition not_ (v : option string) : bool :=
  match v with
  | None => true
  | Some s => bool_decide (s = "")
  end.

(** [Crew(agents=..., tasks=..., verbose=...)]. *)
Record CrewT := Crew {
  agents : list Agent;
  tasks : list Task;
  crew_verbose : bool
}.

Section Library.
(** What crew.py calls and does not define: [load_dotenv] of python-dotenv
    (its effect on the environment), [Crew.kickoff] of crewai (it returns a
    crew output or raises), and [str] on a crew output. *)
Variable load_dotenv : gmap string string → gmap string string.
Variable CrewOutput : Type.
Variable kickoff : CrewT → Exception + CrewOutput.
Variable str : CrewOutput → string.

Definition run_code_review (code : string) : Exception + string :=
  let tasks := create_review_tasks code in
  let crew := Crew [code_review_engineer; security_analyst; frontend_engineer;
                    infrastructure_analyst; tech_lead_reviewer] tasks true in
  match kickoff crew with
  | inl e => inl e
  | inr result => inr (str result)
  end.

(** The names the module binds once its top-level code has run. *)
Record Module := mkModule {
  m_create_review_tasks : string → list Task;
  m_run_code_review : string → Exception + string
}.

(** [import crew] in a process whose environment is [environ]: the .env
    file is loaded, then the credential is checked, and only then are the
    agents and the two functions defined. *)
Definition import_crew (environ : gmap string string) : Exception + Module :=
  let environ := load_dotenv environ in
  if not_ (getenv environ "ANTHROPIC_API_KEY")
  then inl (ValueError "ANTHROPIC_API_KEY not found. Check your .env file!")
  else inr (mkModule create_review_tasks run_code_review).
End Library.

End Crew.

(** ** Properties of the program *)

Module CrewFacts.
Import Crew.
#[local] Open Scope string_scope.

(** The agent a task is bound to tells the five tasks apart. *)
Definition owner_role (t : Task) : string := role (agent t).







Lemma owner_roles code :
  owner_role <$> create_review_tasks code =
  ["Code Review Engineer"; "Security Analyst"; "Frontend Review Engineer";
   "Infrastructure Analyst"; "Technical Lead Reviewer"].
Proof. reflexivity. Qed.

Lemma create_review_tasks_NoDup code : NoDup (create_review_tasks code).
Proof.
  apply (NoDup_fmap_1 owner_role). rewrite owner_roles.
  compute_done.
Qed.

Lemma decision_dependencies code :
  declared_dependencies (decision_task code) =
  [quality_task code; security_task code; frontend_task code;
   infrastructure_task code].
Proof. reflexivity. Qed.

(** C8. For every input string, [create_review_tasks] returns exactly five
    tasks in the fixed order quality, security, frontend, infrastructure,
    decision (five distinct tasks, owned in that order by the five agents);
    the first four declare no dependencies (no [context]); the context of
    the fifth, the decision task, is exactly the four tasks before it in
    the list; hence the decision task depends, transitively, on every other
    task of the list. *)
Theorem create_review_tasks_structure (code : string) :
  create_review_tasks code =
    [quality_task code; security_task code; frontend_task code;
     infrastructure_task code; decision_task code]
  ∧ length (create_review_tasks code) = 5
  ∧ NoDup (create_review_tasks code)
  ∧ agent <$> create_review_tasks code =
      [code_review_engineer; security_analyst; frontend_engineer;
       infrastructure_analyst; tech_lead_reviewer]
  ∧ context <$> take 4 (create_review_tasks code) = [None; None; None; None]
  ∧ (∀ t, t ∈ take 4 (create_review_tasks code) → declared_dependencies t = [])
  ∧ last (create_review_tasks code) = Some (decision_task code)
  ∧ context (decision_task code) = Some (take 4 (create_review_tasks code))
  ∧ (∀ t, depends_on (decision_task code) t ↔
          t ∈ create_review_tasks code ∧ t ≠ decision_task code)
  ∧ (∀ t, t ∈ create_review_tasks code → t ≠ decision_task code →
          tc depends_on (decision_task code) t).
Proof.
  assert (Hdep : ∀ t, depends_on (decision_task code) t ↔
            t ∈ create_review_tasks code ∧ t ≠ decision_task code).
  { intros t. unfold depends_on. rewrite decision_dependencies.
    pose proof (create_review_tasks_NoDup code) as Hnd.
    unfold create_review_tasks in *.
    change [quality_task code; security_task code; frontend_task code;
            infrastructure_task code; decision_task code]
      with ([quality_task code; security_task code; frontend_task code;
             infrastructure_task code] ++ [decision_task code])%list in *.
    apply NoDup_app in Hnd as (_ & Hdisj & _).
    rewrite elem_of_app, list_elem_of_singleton. split.
    - intros Hin. split; [by left |]. intros ->. eapply Hdisj; [done |].
      by apply list_elem_of_singleton.
    - by intros [[Hin | ->] Hne]. }
  split_and!; try reflexivity; [| | done |].
  - apply create_review_tasks_NoDup.
  - intros t Hin. cbn in Hin.
    repeat (apply elem_of_cons in Hin as [-> | Hin]; [reflexivity |]).
    by apply elem_of_nil in Hin.
  - intros t Hin Hne. apply tc_once, Hdep. done.
Qed.






Section ImportGuard.
Variable load_dotenv : gmap string string → gmap string string.
Variable CrewOutput : Type.
Variable kickoff : CrewT → Exception + CrewOutput.
Variable str : CrewOutput → string.

(** C10. Importing the module fails with a [ValueError] whose message
    names ANTHROPIC_API_KEY whenever, once the .env file has been loaded,
    the variable ANTHROPIC_API_KEY is unset or empty; the import then
    yields no module, so there is no [run_code_review] to call. *)
Theorem import_requires_api_key (environ : gmap string string) :
  getenv (load_dotenv environ) "ANTHROPIC_API_KEY" = None
  ∨ getenv (load_dotenv environ) "ANTHROPIC_API_KEY" = Some "" →
  ∃ e, import_crew load_dotenv CrewOutput kickoff str environ = inl e
       ∧ exc_class e = "ValueError"
       ∧ is_substring "ANTHROPIC_API_KEY" (exc_message e)
       ∧ ∀ m, import_crew load_dotenv CrewOutput kickoff str environ ≠ inr m.
Proof.
  intros Hkey.
  exists (ValueError "ANTHROPIC_API_KEY not found. Check your .env file!").
  assert (Himp : import_crew load_dotenv CrewOutput kickoff str environ =
            inl (ValueError "ANTHROPIC_API_KEY not found. Check your .env file!")).
  { unfold import_crew. by destruct Hkey as [-> | ->]. }
  rewrite Himp. split_and!; try reflexivity.
  - by exists "", " not found. Check your .env file!".
  - intros m Hm. discriminate Hm.
Qed.
End ImportGuard.

(** The import guard on a process with an empty environment and a .env
    loader that adds nothing. *)
Lemma import_requires_api_key_witness :
  ∃ e, import_crew id unit (λ _, inr ()) (λ _, "") ∅ = inl e
       ∧ exc_class e = "ValueError"
       ∧ is_substring "ANTHROPIC_API_KEY" (exc_message e)
       ∧ ∀ m, import_crew id unit (λ _, inr ()) (λ _, "") ∅ ≠ inr m.
Proof.
  apply (import_requires_api_key id unit (λ _, inr ()) (λ _, "") ∅).
  left. reflexivity.
Defined.

End CrewFacts.

(** ** Part 2: the orchestration engine

    [run_code_review] hands its task list to [Crew.kickoff] of crewai; the
    code that validates the tasks, runs the agents and passes the results on
    is in that library and not in crew.py.  The engine below is the one the
    specification describes in its place: Worker (section 4.1), Task Graph
    Builder (4.2), Orchestrator (4.3), error taxonomy (7).  Cancellation,
    per-call timeouts and retries (section 5) are not modelled. *)

Module Engine.

Section Orchestrator.
Context `{Countable K}.

(** *** Data model (specification, section 3) *)

(** Modelled from the spec: the Worker of section 3 (crewai's [Agent] at
    run time is missing): an identity and a persona; it holds no state. *)
Record Worker := mkWorker { identity : string; persona : string }.

(** Modelled from the spec: a description template (section 3), literal
    text and placeholders, each naming the task whose Result is to be
    substituted. *)
Inductive Segment := Text (s : string) | ResultOf (k : K).

(** Modelled from the spec: the Task of section 3 (crewai's [Task] at run
    time is missing).  It is owned by one Worker and carries a description
    template, the set of identities it depends on and an expected-output
    contract.  A task set maps each identity to its task, so identities are
    unique. *)
Record Task := mkTask {
  owner : Worker;
  template : list Segment;
  dependencies : gset K;
  expected_output : string
}.

Inductive Status := Pending | Ready | Running | Completed | Failed.

#[global] Instance Status_eq_dec : EqDecision Status.
Proof. solve_decision. Defined.

(** *** Worker (specification, section 4.1) *)

Inductive CollaboratorError :=
  Unreachable | ErrorStatus (code : nat) | TimedOut.

Inductive Cause := CollaboratorFailed (e : CollaboratorError) | EmptyResponse.

Record WorkerFailure := mkFailure { failed_worker : string; cause : Cause }.

(** The external inference collaborator: persona and prompt in, generated
    text or an error out. *)
Variable collaborator : string → string → CollaboratorError + string.

(** Modelled from the spec: [execute(promptText) -> GeneratedText | Failure]
    of section 4.1 (the agent's call of the language model is missing).
    Every collaborator error and the empty response become a
    [WorkerFailure] with the Worker's identity and the cause. *)
Definition execute (w : Worker) (prompt : string) : WorkerFailure + string :=
  match collaborator (persona w) prompt with
  | inl e => inl (mkFailure (identity w) (CollaboratorFailed e))
  | inr EmptyString => inl (mkFailure (identity w) EmptyResponse)
  | inr text => inr text
  end.

(** *** Task Graph Builder (specification, section 4.2) *)

Definition deps_of (ts : gmap K Task) (k : K) : gset K :=
  from_option dependencies ∅ (ts !! k).

(** [depends_on ts k d]: task [k] of the set lists [d] as a dependency. *)
Definition depends_on (ts : gmap K Task) (k d : K) : Prop := d ∈ deps_of ts k.

#[global] Instance depends_on_dec ts k d : Decision (depends_on ts k d).
Proof. unfold depends_on. apply _. Defined.

Inductive GraphError :=
  | MissingDependency (task dependency : K)
  | Cycle (participants : list K).

(** The (task, dependency) pairs of the set. *)
Definition edges (ts : gmap K Task) : list (K * K) :=
  kt ← map_to_list ts; (λ d, (kt.1, d)) <$> elements (dependencies kt.2).

(** The first dependency that refers to no task of the set. *)
Definition missing_dependency (ts : gmap K Task) : option (K * K) :=
  snd <$> list_find (λ e, e.2 ∉ dom ts) (edges ts).

(** Left-to-right fold that stops at the first error. *)
Definition fold_until {A B E} (f : B → A → E + B) : B → list A → E + B :=
  fix go b l :=
    match l with
    | [] => inr b
    | a :: l => match f b a with inl e => inl e | inr b' => go b' l end
    end.

(** The tasks on the path from [k] back to the top of the stack. *)
Fixpoint cycle_of (k : K) (path : list K) : list K :=
  match path with
  | [] => []
  | p :: path => if decide (p = k) then [p] else p :: cycle_of k path
  end.

(** Modelled from the spec: the cycle check of section 4.2, a depth-first
    traversal from [k].  [path] is the stack of the tasks being visited (the
    visiting marker), [visited] the tasks already finished.  The result is
    the first cycle met or the enlarged visited set.  The fuel bounds the
    depth; a stack never holds more tasks than the set. *)
Fixpoint visit (fuel : nat) (ts : gmap K Task) (path : list K)
    (visited : gset K) (k : K) : list K + gset K :=
  match fuel with
  | 0 => inl (k :: path)
  | S fuel =>
    if decide (k ∈ visited) then inr visited
    else if decide (k ∈ path) then inl (cycle_of k path)
    else
      match fold_until (visit fuel ts (k :: path)) visited
              (elements (deps_of ts k)) with
      | inl c => inl c
      | inr visited' => inr ({[k]} ∪ visited')
      end
  end.

Definition find_cycle (ts : gmap K Task) : option (list K) :=
  match fold_until (visit (S (size ts)) ts []) ∅ (elements (dom ts)) with
  | inl c => Some c
  | inr _ => None
  end.

(** The materialized graph: the tasks and, for each, its in-degree (the
    number of its dependencies). *)
Record Graph := mkGraph {
  tasks : gmap K Task;
  in_degree : gmap K nat
}.

Definition graph_of (ts : gmap K Task) : Graph :=
  mkGraph ts ((λ t, size (dependencies t)) <$> ts).

(** Modelled from the spec: the Task Graph Builder of section 4.2 (the
    validation of a task list inside crewai's [Crew] is missing).  It checks
    that every dependency identity refers to a task of the set and that
    there is no cycle, and computes the in-degrees. *)
Definition build_graph (ts : gmap K Task) : GraphError + Graph :=
  match missing_dependency ts with
  | Some (k, d) => inl (MissingDependency k d)
  | None =>
    match find_cycle ts with
    | Some c => inl (Cycle c)
    | None => inr (graph_of ts)
    end
  end.

(** The graph's two queries. *)
Definition zero_unresolved (g : Graph) : list K :=
  filter (λ k, in_degree g !! k = Some 0) (elements (dom (tasks g))).

Definition successors (g : Graph) (x : K) : list K :=
  filter (λ k, depends_on (tasks g) k x) (elements (dom (tasks g))).

(** [reaches n ts k a]: [k] depends on [a] through at most [n] edges. *)
Fixpoint reaches (n : nat) (ts : gmap K Task) (k a : K) : bool :=
  match n with
  | 0 => false
  | S n =>
    bool_decide (a ∈ deps_of ts k)
    || existsb (λ d, reaches n ts d a) (elements (deps_of ts k))
  end.

Definition transitive_successors (g : Graph) (a : K) : list K :=
  filter (λ k, reaches (size (tasks g)) (tasks g) k a)
         (elements (dom (tasks g))).

(** *** Orchestrator (specification, section 4.3) *)

Inductive Event :=
  | Dispatched (k : K) (prompt : string)
  | Finished (k : K) (result : string)
  | WorkerFailed (k : K) (f : WorkerFailure).

(** Modelled from the spec: the state of an Orchestration Run (sections 3
    and 4.3).  [context] is the Execution Context, [unresolved] the
    unresolved-dependency counts, [ready] the ready queue, [in_flight] the
    dispatched tasks whose Worker has not answered yet, each with its
    resolved prompt.  [trace] lists the events, newest first. *)
Record State := mkState {
  status : gmap K Status;
  context : gmap K string;
  unresolved : gmap K nat;
  ready : list K;
  in_flight : gmap K string;
  trace : list Event
}.

Definition mark (l : list K) (s : Status) (m : gmap K Status) : gmap K Status :=
  foldr (λ k, <[k := s]>) m l.

(** Modelled from the spec: step 1 of section 4.3.  Every task starts
    Pending, except those with no dependency, which are Ready and form the
    ready queue. *)
Definition init (g : Graph) : State :=
  mkState (mark (zero_unresolved g) Ready ((λ _, Pending) <$> tasks g))
          ∅ (in_degree g) (zero_unresolved g) ∅ [].

(** Modelled from the spec: step 2b of section 4.3.  Each placeholder that
    names a dependency is replaced by that dependency's Result; a dependency
    without a Result in the context is an invariant violation ([None]).  A
    task reads the Results of its dependencies only. *)
Definition fill (t : Task) (ctx : gmap K string) (s : Segment) : string :=
  match s with
  | Text s => s
  | ResultOf k =>
    if decide (k ∈ dependencies t) then default EmptyString (ctx !! k)
    else EmptyString
  end.

Definition resolve (t : Task) (ctx : gmap K string) : option string :=
  if decide (dependencies t ⊆ dom ctx)
  then Some (String.concat EmptyString (fill t ctx <$> template t))
  else None.

Inductive Fatal := UnknownTask (k : K) | MissingResult (k : K).

(** Modelled from the spec: step 2a of section 4.3 for one task.  Its
    prompt is resolved and it is handed to its Worker. *)
Definition dispatch (g : Graph) (k : K) (st : State) : Fatal + State :=
  match tasks g !! k with
  | None => inl (UnknownTask k)
  | Some t =>
    match resolve t (context st) with
    | None => inl (MissingResult k)
    | Some prompt =>
      inr (mkState (<[k := Running]> (status st)) (context st) (unresolved st)
             (filter (λ x, x ≠ k) (ready st)) (<[k := prompt]> (in_flight st))
             (Dispatched k prompt :: trace st))
    end
  end.

(** Modelled from the spec: step 2c of section 4.3.  The Result is
    recorded, the task marked Completed, the count of each successor
    decremented; the Pending successors that reach zero become Ready and
    join the queue. *)
Definition decrement (l : list K) (m : gmap K nat) : gmap K nat :=
  foldr (alter pred) m l.

Definition complete (g : Graph) (k : K) (r : string) (st : State) : State :=
  let counts := decrement (successors g k) (unresolved st) in
  let released :=
    filter (λ s, counts !! s = Some 0 ∧ status st !! s = Some Pending)
           (successors g k) in
  mkState (mark released Ready (<[k := Completed]> (status st)))
          (<[k := r]> (context st)) counts (ready st ++ released)
          (delete k (in_flight st)) (Finished k r :: trace st).

(** Modelled from the spec: step 2d of section 4.3.  The task is marked
    Failed, and with it every transitive successor, none of which is
    executed. *)
Definition fail (g : Graph) (k : K) (f : WorkerFailure) (st : State) : State :=
  mkState (mark (transitive_successors g k) Failed (<[k := Failed]> (status st)))
          (context st) (unresolved st) (ready st)
          (delete k (in_flight st)) (WorkerFailed k f :: trace st).

(** The Worker of an in-flight task answers. *)
Definition settle (g : Graph) (k : K) (st : State) : State :=
  match tasks g !! k, in_flight st !! k with
  | Some t, Some prompt =>
    match execute (owner t) prompt with
    | inr r => complete g k r st
    | inl f => fail g k f st
    end
  | _, _ => st
  end.



(** Modelled from the spec: the loop of step 2, as one schedule.  Each
    round dispatches every task of the ready queue, then lets their Workers
    answer. *)
Definition round (g : Graph) (st : State) : Fatal + State :=
  match fold_until (λ st k, dispatch g k st) st (ready st) with
  | inl e => inl e
  | inr st' => inr (foldl (λ st k, settle g k st) st' (ready st))
  end.

(** Modelled from the spec: step 3 of section 4.3.  The run is over once
    the terminal task is Completed or Failed. *)
Definition settled (terminal : K) (st : State) : bool :=
  bool_decide (status st !! terminal = Some Completed
               ∨ status st !! terminal = Some Failed).

Fixpoint schedule (fuel : nat) (g : Graph) (terminal : K) (st : State)
    : Fatal + State :=
  match fuel with
  | 0 => inr st
  | S fuel =>
    if settled terminal st then inr st
    else
      match ready st with
      | [] => inr st
      | _ :: _ =>
        match round g st with
        | inl e => inl e
        | inr st' => schedule fuel g terminal st'
        end
      end
  end.

Inductive RunError :=
  | InvalidGraph (e : GraphError)
  | TaskFailed (k : K) (f : WorkerFailure)
  | InvariantViolation (e : Fatal)
  | Unfinished.

Definition failure_of (e : Event) : option (K * WorkerFailure) :=
  match e with WorkerFailed k f => Some (k, f) | _ => None end.

(** [k] is the terminal task or one of its transitive dependencies. *)
Definition on_critical_path (g : Graph) (terminal k : K) : Prop :=
  k = terminal ∨ reaches (size (tasks g)) (tasks g) terminal k.

(** Modelled from the spec: the propagation policy of section 7.  The
    failures of the tasks on the critical path, newest first; the root cause
    of a failed run is the first of them in time. *)
Definition critical_failures (g : Graph) (terminal : K) (tr : list Event)
    : list (K * WorkerFailure) :=
  filter (λ kf, on_critical_path g terminal kf.1) (omap failure_of tr).

Definition root_cause (g : Graph) (terminal : K) (tr : list Event)
    : option (K * WorkerFailure) :=
  last (critical_failures g terminal tr).

(** Modelled from the spec: what the run reports (sections 6 and 7), the
    terminal task's Result or the root cause of its failure. *)
Definition outcome (g : Graph) (terminal : K) (st : State) : RunError + string :=
  match status st !! terminal with
  | Some Completed =>
    match context st !! terminal with
    | Some r => inr r
    | None => inl Unfinished
    end
  | Some Failed =>
    match root_cause g terminal (trace st) with
    | Some (k, f) => inl (TaskFailed k f)
    | None => inl Unfinished
    end
  | _ => inl Unfinished
  end.

Definition run (g : Graph) (terminal : K) : Fatal + State :=
  schedule (size (tasks g)) g terminal (init g).

(** Modelled from the spec: the Orchestrator of section 4.3 ([Crew.kickoff]
    of crewai is missing).  The task set is validated, then executed; the
    run returns its report and the events that took place. *)
Definition orchestrate (ts : gmap K Task) (terminal : K)
    : (RunError + string) * list Event :=
  match build_graph ts with
  | inl e => (inl (InvalidGraph e), [])
  | inr g =>
    match run g terminal with
    | inl e => (inl (InvariantViolation e), [])
    | inr st => (outcome g terminal st, trace st)
    end
  end.

(** The number of times the Worker of [k] was invoked. *)
Definition dispatch_of (e : Event) : option K :=
  match e with Dispatched k _ => Some k | _ => None end.

Definition invocations (k : K) (tr : list Event) : nat :=
  length (filter (λ e, dispatch_of e = Some k) tr).




(** A valid task set: every dependency refers to a task of the set, and no
    task depends on itself, directly or transitively. *)
Definition closed (ts : gmap K Task) : Prop :=
  ∀ k d, depends_on ts k d → d ∈ dom ts.

Definition acyclic (ts : gmap K Task) : Prop :=
  ∀ k, ¬ tc (depends_on ts) k k.


(** *** Notions used to state and prove the properties of a run *)

(** A visited set is sound when it is closed under dependencies and none of
    its members lies on a cycle. *)
Definition sound_visited (ts : gmap K Task) (V : gset K) : Prop :=
  (∀ x d, x ∈ V → depends_on ts x d → d ∈ V)
  ∧ (∀ x, x ∈ V → ¬ tc (depends_on ts) x x).

(** In a stack of the traversal every task reaches the tasks above it. *)
Fixpoint stack_ok (ts : gmap K Task) (path : list K) : Prop :=
  match path with
  | [] => True
  | x :: rest => (∀ y, y ∈ rest → tc (depends_on ts) y x) ∧ stack_ok ts rest
  end.










(** *** The graph builder is exact *)

Lemma deps_of_Some ts k t : ts !! k = Some t → deps_of ts k = dependencies t.
Proof. unfold deps_of. by intros ->. Qed.

Lemma depends_on_dom ts k d : depends_on ts k d → k ∈ dom ts.
Proof.
  unfold depends_on, deps_of. intros Hd. apply elem_of_dom.
  destruct (ts !! k); [done | set_solver].
Qed.

Lemma depends_on_lookup ts k d :
  depends_on ts k d ↔ ∃ t, ts !! k = Some t ∧ d ∈ dependencies t.
Proof.
  unfold depends_on, deps_of. destruct (ts !! k) as [t |]; simpl.
  - split; [eauto | by intros (? & [= <-] & ?)].
  - split; [set_solver | by intros (? & ? & ?)].
Qed.

Lemma elem_of_edges ts k d : (k, d) ∈ edges ts ↔ depends_on ts k d.
Proof.
  unfold edges. rewrite list_elem_of_bind, depends_on_lookup. split.
  - intros ([k' t] & Hin & Hkt). apply elem_of_map_to_list in Hkt.
    apply list_elem_of_fmap in Hin as (d' & [= -> ->] & Hd').
    apply elem_of_elements in Hd'. eauto.
  - intros (t & Hk & Hd). exists (k, t). split.
    + apply list_elem_of_fmap. exists d. by rewrite elem_of_elements.
    + by apply elem_of_map_to_list.
Qed.

Lemma missing_dependency_None ts : missing_dependency ts = None ↔ closed ts.
Proof.
  unfold missing_dependency, closed. rewrite fmap_None, list_find_None, Forall_forall.
  split.
  - intros Hall k d Hd. apply elem_of_edges, Hall in Hd. simpl in Hd.
    by destruct (decide (d ∈ dom ts)).
  - intros Hcl [k d] Hin Hnot. apply elem_of_edges, Hcl in Hin. done.
Qed.

Lemma missing_dependency_Some ts k d :
  missing_dependency ts = Some (k, d) → depends_on ts k d ∧ d ∉ dom ts.
Proof.
  unfold missing_dependency. intros Hfind.
  apply fmap_Some in Hfind as ([i e] & Hfind & Heq). simpl in Heq. subst e.
  apply list_find_Some in Hfind as (Hi & Hmiss & _).
  split; [| done]. apply elem_of_edges. eapply list_elem_of_lookup_2, Hi.
Qed.

Lemma fold_until_cons {A B E} (f : B → A → E + B) b a l :
  fold_until f b (a :: l) =
  match f b a with inl e => inl e | inr b' => fold_until f b' l end.
Proof. reflexivity. Qed.

Lemma sound_visited_rtc ts V x y :
  sound_visited ts V → x ∈ V → rtc (depends_on ts) x y → y ∈ V.
Proof. intros [Hcl _] Hx Hxy. induction Hxy; eauto. Qed.

Lemma tc_first_step {A} (R : relation A) x y :
  tc R x y → ∃ z, R x z ∧ rtc R z y.
Proof.
  destruct 1 as [x y Hxy | x z y Hxz Hzy]; [by exists y |].
  exists z. split; [done |]. by apply tc_rtc.
Qed.

Lemma fold_visit_inr ts fuel path :
  (∀ visited k vis',
     visit fuel ts path visited k = inr vis' → sound_visited ts visited →
     sound_visited ts vis' ∧ visited ⊆ vis' ∧ k ∈ vis'
     ∧ ∀ x, x ∈ vis' → x ∉ visited → x ∉ path) →
  ∀ l visited vis',
    fold_until (visit fuel ts path) visited l = inr vis' →
    sound_visited ts visited →
    sound_visited ts vis' ∧ visited ⊆ vis' ∧ (∀ d, d ∈ l → d ∈ vis')
    ∧ ∀ x, x ∈ vis' → x ∉ visited → x ∉ path.
Proof.
  intros IH l. induction l as [| d l IHl]; intros visited vis' Hfold Hs.
  - injection Hfold as <-. split_and!; [done | done | | done].
    intros d Hd. by apply elem_of_nil in Hd.
  - rewrite fold_until_cons in Hfold.
    destruct (visit fuel ts path visited d) as [c | v1] eqn:Hv; [done |].
    apply IH in Hv as (Hs1 & Hsub1 & Hd1 & Hnew1); [| done].
    apply IHl in Hfold as (Hs2 & Hsub2 & Hl2 & Hnew2); [| done].
    split_and!; [done | set_solver | |].
    + intros x [-> | Hx]%elem_of_cons; [set_solver | by apply Hl2].
    + intros x Hx Hnx. destruct (decide (x ∈ v1)); [by apply Hnew1 |].
      by apply Hnew2.
Qed.

Lemma visit_inr ts fuel : ∀ path visited k vis',
  visit fuel ts path visited k = inr vis' → sound_visited ts visited →
  sound_visited ts vis' ∧ visited ⊆ vis' ∧ k ∈ vis'
  ∧ ∀ x, x ∈ vis' → x ∉ visited → x ∉ path.
Proof.
  induction fuel as [| fuel IH]; intros path visited k vis' Hv Hs; [done |].
  simpl in Hv. destruct (decide (k ∈ visited)) as [Hk | Hk].
  { injection Hv as <-. by split_and!. }
  destruct (decide (k ∈ path)) as [Hp | Hp]; [done |].
  destruct (fold_until _ _ _) as [c | v1] eqn:Hfold; [done |].
  injection Hv as <-.
  apply (fold_visit_inr ts fuel (k :: path) (IH (k :: path))) in Hfold
    as (Hs1 & Hsub1 & Hdeps & Hnew); [| done].
  assert (Hk1 : k ∉ v1).
  { intros Hin. apply (Hnew k Hin Hk). by left. }
  split_and!; [| set_solver | set_solver |].
  - split.
    + intros x d [->%elem_of_singleton | Hx]%elem_of_union Hd.
      * apply elem_of_union_r, Hdeps, elem_of_elements, Hd.
      * apply elem_of_union_r. by apply (proj1 Hs1 x).
    + intros x [->%elem_of_singleton | Hx]%elem_of_union Hcyc.
      * apply tc_first_step in Hcyc as (d & Hd & Hdk).
        apply Hk1. apply (sound_visited_rtc ts v1 d); [done | | done].
        apply Hdeps, elem_of_elements, Hd.
      * by apply (proj2 Hs1 x).
  - intros x [->%elem_of_singleton | Hx]%elem_of_union Hnx; [done |].
    intros Hxp. apply (Hnew x Hx Hnx). by right.
Qed.

Lemma find_cycle_None_acyclic ts : find_cycle ts = None → acyclic ts.
Proof.
  unfold find_cycle. destruct (fold_until _ _ _) as [c | vis] eqn:Hfold; [done |].
  intros _ k Hcyc.
  apply (fold_visit_inr ts _ [] (visit_inr ts _ [])) in Hfold
    as (Hs & _ & Hall & _).
  - apply (proj2 Hs k); [| done]. apply Hall, elem_of_elements.
    apply tc_first_step in Hcyc as (d & Hd & _). by eapply depends_on_dom.
  - split; intros x; set_solver.
Qed.

Lemma path_length_bound (ts : gmap K Task) (path : list K) :
  NoDup path → (∀ p, p ∈ path → p ∈ dom ts) → length path ≤ size ts.
Proof.
  intros Hnd Hdom. rewrite <- size_dom. unfold size, set_size. simpl.
  apply submseteq_length, NoDup_submseteq; [done |].
  intros p Hp. by apply elem_of_elements, Hdom.
Qed.





(** *** A reported cycle is a cycle *)

Lemma cycle_of_nonempty k path : k ∈ path → cycle_of k path ≠ [].
Proof.
  destruct path as [| x rest]; [by intros ?%elem_of_nil |].
  intros _. simpl. by case_decide.
Qed.

Lemma cycle_of_genuine ts k path :
  k ∈ path → (∀ p, p ∈ path → tc (depends_on ts) p k) → stack_ok ts path →
  ∀ x, x ∈ cycle_of k path → tc (depends_on ts) x x.
Proof.
  induction path as [| y rest IH]; [by intros ?%elem_of_nil |].
  intros Hk Hchain [Hy Hrest] x. simpl. case_decide as Hyk.
  - subst. intros ->%list_elem_of_singleton. apply Hchain. by left.
  - apply elem_of_cons in Hk as [-> | Hk]; [done |].
    intros [-> | Hx]%elem_of_cons.
    + eapply tc_transitive; [apply Hchain; by left | by apply Hy].
    + apply IH; [done | | done | done].
      intros p Hp. apply Hchain. by right.
Qed.

Lemma fold_until_inl {A B E} (f : B → A → E + B) l b e :
  fold_until f b l = inl e → ∃ a b', a ∈ l ∧ f b' a = inl e.
Proof.
  revert b. induction l as [| a l IH]; intros b; [done |].
  rewrite fold_until_cons. destruct (f b a) as [e' | b'] eqn:Hf.
  - intros [= <-]. exists a, b. split; [by left | done].
  - intros (a' & b'' & Hin & Hf')%IH. exists a', b''. split; [by right | done].
Qed.

Lemma visit_inl ts : ∀ fuel path visited k c,
  visit fuel ts path visited k = inl c →
  fuel + length path = S (size ts) → NoDup path →
  (∀ p, p ∈ path → p ∈ dom ts) →
  (∀ p, p ∈ path → tc (depends_on ts) p k) → stack_ok ts path →
  c ≠ [] ∧ ∀ x, x ∈ c → tc (depends_on ts) x x.
Proof.
  intros fuel. induction fuel as [| fuel IH];
    intros path visited k c Hv Hfuel Hnd Hdom Hchain Hstack.
  { pose proof (path_length_bound ts path Hnd Hdom). simpl in Hfuel. lia. }
  simpl in Hv. destruct (decide (k ∈ visited)); [done |].
  destruct (decide (k ∈ path)) as [Hp | Hp].
  { injection Hv as <-. split; [by apply cycle_of_nonempty |].
    by apply cycle_of_genuine. }
  destruct (fold_until _ _ _) as [c' | v1] eqn:Hfold; [| done].
  injection Hv as ->.
  apply fold_until_inl in Hfold as (d & vis & Hd & Hvd).
  apply elem_of_elements in Hd.
  apply (IH (k :: path) vis d c Hvd).
  - simpl. lia.
  - by apply NoDup_cons.
  - intros p [-> | Hin]%elem_of_cons; [by eapply depends_on_dom | by apply Hdom].
  - intros p [-> | Hin]%elem_of_cons; [by apply tc_once |].
    eapply tc_r; [by apply Hchain | done].
  - split; [exact Hchain | exact Hstack].
Qed.

Lemma find_cycle_Some ts c :
  find_cycle ts = Some c → c ≠ [] ∧ ∀ x, x ∈ c → tc (depends_on ts) x x.
Proof.
  unfold find_cycle. destruct (fold_until _ _ _) as [c' | vis] eqn:Hfold; [| done].
  intros [= ->]. apply fold_until_inl in Hfold as (k & vis & _ & Hv).
  apply (visit_inl ts _ [] vis k c Hv).
  - simpl. lia.
  - constructor.
  - intros p Hp. by apply elem_of_nil in Hp.
  - intros p Hp. by apply elem_of_nil in Hp.
  - done.
Qed.

(** *** Transitive dependencies, computed and as a relation *)








(** *** Bookkeeping lemmas *)














(** *** The invariant of a run *)






(** *** Dispatching a Ready task *)



(** *** A Worker delivers its Result *)


(** *** A Worker fails *)





(** *** The schedule is a run of the step relation *)












(** *** Progress when every Worker succeeds *)













(** *** What a run guarantees *)










(** The builder rejects a task set with a cycle or a dangling dependency;
    the error names a dependency that is indeed missing, or tasks that
    indeed lie on a cycle. *)
Lemma invalid_rejected ts :
  (∃ k, tc (depends_on ts) k k) ∨ (∃ k d, depends_on ts k d ∧ d ∉ dom ts) →
  ∃ e, build_graph ts = inl e
    ∧ match e with
      | MissingDependency k d => depends_on ts k d ∧ d ∉ dom ts
      | Cycle c =>
          closed ts ∧ c ≠ [] ∧ ∀ x, x ∈ c → tc (depends_on ts) x x
      end.
Proof.
  intros Hbad. unfold build_graph.
  destruct (missing_dependency ts) as [[k d] |] eqn:Hmiss.
  { eexists. split; [done |]. by apply missing_dependency_Some. }
  apply missing_dependency_None in Hmiss.
  destruct Hbad as [Hcyc | (k & d & Hd & Hnd)]; [| by destruct Hnd; eauto].
  destruct (find_cycle ts) as [c |] eqn:Hfind.
  { eexists. split; [done |]. split; [done |]. by apply find_cycle_Some. }
  apply find_cycle_None_acyclic in Hfind. destruct Hcyc as [k Hk].
  by destruct (Hfind k).
Qed.

(** *** The events of a trace are the calls of the Workers *)





End Orchestrator.
End Engine.

(** ** Part 3: the review crew as a task set of the engine *)

Module Review.
Import Engine.

#[local] Open Scope string_scope.

#[global] Instance Agent_eq_dec : EqDecision Crew.Agent.
Proof. solve_decision. Defined.

Fixpoint Task_eq_dec (a b : Crew.Task) : Decision (a = b).
Proof.
  refine (
    match a, b with
    | Crew.mkTask d1 e1 a1 c1, Crew.mkTask d2 e2 a2 c2 =>
      cast_if_and4 (decide (d1 = d2)) (decide (e1 = e2)) (decide (a1 = a2))
        (@option_eq_dec _ (@list_eq_dec _ Task_eq_dec) c1 c2)
    end); congruence.
Defined.

#[global] Existing Instance Task_eq_dec.

(** Modelled from the spec: the Worker behind an agent.  Its identity is the
    role; its persona is the goal followed by the backstory. *)
Definition worker_of (a : Crew.Agent) : Worker :=
  mkWorker (Crew.role a) (Crew.goal a +:+ "
" +:+ Crew.backstory a).

(** The identity of a task object: its position in the task list.  An
    object that is not in the list gets an identity outside the set. *)
Definition position (all : list Crew.Task) (t : Crew.Task) : nat :=
  default (length all) (fst <$> list_find (λ x, x = t) all).

(** The delimiter that names the Worker whose Result follows. *)
Definition delimiter (w : Worker) : string :=
  "

--- " +:+ identity w +:+ " ---
".

(** Modelled from the spec: [context=[...]] declares the dependencies of a
    task; its template is the description followed, for each dependency,
    by a delimiter and the placeholder of that dependency's Result. *)
Definition engine_task (all : list Crew.Task) (t : Crew.Task) : Task (K := nat) :=
  mkTask (worker_of (Crew.agent t))
    (Text (Crew.description t)
     :: (d ← Crew.declared_dependencies t;
         [Text (delimiter (worker_of (Crew.agent d))); ResultOf (position all d)]))
    (list_to_set (position all <$> Crew.declared_dependencies t))
    (Crew.expected_output t).

Definition task_set (all : list Crew.Task) : gmap nat (Task (K := nat)) :=
  map_seq 0 (engine_task all <$> all).

Definition review_task_set (code : string) : gmap nat (Task (K := nat)) :=
  task_set (Crew.create_review_tasks code).

(** The terminal task is the last of the list, the decision task. *)
Definition terminal_of (all : list Crew.Task) : nat := pred (length all).

(** Modelled from the spec: [runReview(artifactText)], the run of the
    engine on the tasks that [create_review_tasks] builds. *)
Definition run_review (collaborator : string → string → CollaboratorError + string)
    (code : string) : (RunError + string) * list Event :=
  orchestrate collaborator (review_task_set code)
    (terminal_of (Crew.create_review_tasks code)).

(** The end-to-end scenario of the specification: tasks A, B, C, D without
    dependencies and a task E that depends on the four. *)
Definition scenario_worker (n : string) : Worker := mkWorker n n.

Definition scenario : gmap nat (Task (K := nat)) :=
  list_to_map
    [(0, mkTask (scenario_worker "A") [Text "a"] ∅ "");
     (1, mkTask (scenario_worker "B") [Text "b"] ∅ "");
     (2, mkTask (scenario_worker "C") [Text "c"] ∅ "");
     (3, mkTask (scenario_worker "D") [Text "d"] ∅ "");
     (4, mkTask (scenario_worker "E")
           [Text "e:"; ResultOf 0; ResultOf 1; ResultOf 2; ResultOf 3]
           {[0; 1; 2; 3]} "")].

(** Stub Workers: E answers with its resolved prompt, the others with a
    fixed literal. *)
Definition stub_ok (persona prompt : string) : CollaboratorError + string :=
  if decide (persona = "E") then inr prompt else inr (persona +:+ "-ok").

(** The same, except that B always fails. *)
Definition stub_B_fails (persona prompt : string) : CollaboratorError + string :=
  if decide (persona = "B") then inl Unreachable else stub_ok persona prompt.

(** A task set with the cycle 0 -> 1 -> 2 -> 0. *)
Definition cyclic_scenario : gmap nat (Task (K := nat)) :=
  list_to_map
    [(0, mkTask (scenario_worker "A") [Text "a"] {[1]} "");
     (1, mkTask (scenario_worker "B") [Text "b"] {[2]} "");
     (2, mkTask (scenario_worker "C") [Text "c"] {[0]} "");
     (3, mkTask (scenario_worker "D") [Text "d"] ∅ "")].









(** *** Properties of the engine and of the review run *)





(** C3. For every task set that contains a dependency cycle or a dependency
    identity that refers to no task of the set, graph construction fails
    with a [GraphError] (a dependency that is indeed missing, or tasks that
    indeed lie on a cycle), and the run reports that error with an empty
    trace: no task is dispatched, so no Worker is invoked. *)
Theorem invalid_task_set_is_rejected (K : Type) `{Countable K}
    (collaborator : string → string → CollaboratorError + string)
    (ts : gmap K (Task (K := K))) :
  (∃ k, tc (depends_on ts) k k) ∨ (∃ k d, depends_on ts k d ∧ d ∉ dom ts) →
  ∃ e, build_graph ts = inl e
    ∧ match e with
      | MissingDependency k d => depends_on ts k d ∧ d ∉ dom ts
      | Cycle c =>
          closed ts ∧ c ≠ [] ∧ ∀ x, x ∈ c → tc (depends_on ts) x x
      end
    ∧ ∀ terminal,
        orchestrate collaborator ts terminal = (inl (InvalidGraph e), [])
        ∧ ∀ k, invocations k (orchestrate collaborator ts terminal).2 = 0.
Proof.
  intros Hbad. destruct (invalid_rejected ts Hbad) as (e & He & Hkind).
  exists e. split_and!; [done | done |]. intros terminal.
  unfold orchestrate. rewrite He. done.
Qed.

Lemma cyclic_scenario_cycle : tc (depends_on cyclic_scenario) 0 0.
Proof.
  apply (tc_l _ 0 1 0); [compute_done |].
  apply (tc_l _ 1 2 0); [compute_done |].
  apply tc_once. compute_done.
Qed.

(** The cyclic task set is rejected, whichever task is taken as terminal. *)
Lemma invalid_task_set_is_rejected_witness :
  (∃ k, tc (depends_on cyclic_scenario) k k)
  ∧ ∃ e, build_graph cyclic_scenario = inl e
    ∧ match e with
      | MissingDependency k d =>
          depends_on cyclic_scenario k d ∧ d ∉ dom cyclic_scenario
      | Cycle c =>
          closed cyclic_scenario ∧ c ≠ []
          ∧ ∀ x, x ∈ c → tc (depends_on cyclic_scenario) x x
      end
    ∧ ∀ terminal,
        orchestrate stub_ok cyclic_scenario terminal
          = (inl (InvalidGraph e), [])
        ∧ ∀ k, invocations k (orchestrate stub_ok cyclic_scenario terminal).2 = 0.
Proof.
  split; [exists 0; exact cyclic_scenario_cycle |].
  apply (invalid_task_set_is_rejected nat stub_ok cyclic_scenario).
  left. exists 0. exact cyclic_scenario_cycle.
Defined.



(** The two scenarios of the specification, run. *)
Example scenario_all_succeed :
  orchestrate stub_ok scenario 4 =
  (inr "e:A-okB-okC-okD-ok",
   [Finished 4 "e:A-okB-okC-okD-ok"; Dispatched 4 "e:A-okB-okC-okD-ok";
    Finished 0 "A-ok"; Finished 1 "B-ok"; Finished 3 "D-ok";
    Finished 2 "C-ok"; Dispatched 0 "a"; Dispatched 1 "b";
    Dispatched 3 "d"; Dispatched 2 "c"]).
Proof. by vm_compute. Qed.

Example scenario_B_fails :
  orchestrate stub_B_fails scenario 4 =
  (inl (TaskFailed 1 (mkFailure "B" (CollaboratorFailed Unreachable))),
   [Finished 0 "A-ok";
    WorkerFailed 1 (mkFailure "B" (CollaboratorFailed Unreachable));
    Finished 3 "D-ok"; Finished 2 "C-ok"; Dispatched 0 "a";
    Dispatched 1 "b"; Dispatched 3 "d"; Dispatched 2 "c"]).
Proof. by vm_compute. Qed.

Example cyclic_scenario_rejected :
  orchestrate stub_ok cyclic_scenario 3 = (inl (InvalidGraph (Cycle [1; 0; 2])), []).
Proof. by vm_compute. Qed.
End Review.

(** ** Further properties of [crew.py] *)

Module CrewProperties.
Import Crew.
#[local] Open Scope string_scope.

(** Where the code under review sits in each task's description: the
    number of bytes before it and after it, task by task. *)
Definition code_window : list (nat * nat) :=
  [(85, 741); (95, 731); (88, 1053); (110, 1048); (225, 415)]%nat.

(** The text of [d] between the first [w.1] and the last [w.2] bytes. *)
Definition extract_code (w : nat * nat) (d : string) : string :=
  String.substring w.1 (String.length d - w.1 - w.2) d.

(** The fence lines that the templates put around the code. *)
Definition fence_open : string := "```
        ".

Definition fence_close : string := "
        ```".

Lemma length_append (s t : string) :
  String.length (s +:+ t) = (String.length s + String.length t)%nat.
Proof. induction s as [| a s IH]; [done |]. simpl. by rewrite IH. Qed.

Lemma substring_append_skip (s t : string) (n m : nat) :
  String.substring (String.length s + n) m (s +:+ t) = String.substring n m t.
Proof. induction s as [| a s IH]; [done |]. simpl. by rewrite IH. Qed.

Lemma substring_append_prefix (s t : string) :
  String.substring 0 (String.length s) (s +:+ t) = s.
Proof.
  induction s as [| a s IH]; simpl.
  - by destruct t.
  - by rewrite IH.
Qed.

Lemma substring_append_middle (pre s post : string) :
  String.substring (String.length pre) (String.length s) (pre +:+ s +:+ post) = s.
Proof.
  rewrite <- (Nat.add_0_r (String.length pre)), substring_append_skip.
  apply substring_append_prefix.
Qed.

Lemma window (pre post code : string) (n m : nat) :
  String.length pre = n → String.length post = m →
  String.length (pre +:+ code +:+ post) = (n + String.length code + m)%nat
  ∧ extract_code (n, m) (pre +:+ code +:+ post) = code.
Proof.
  intros <- <-. split.
  - rewrite !length_append. lia.
  - unfold extract_code. simpl fst. simpl snd. rewrite !length_append.
    replace (String.length pre + (String.length code + String.length post)
             - String.length pre - String.length post)%nat
      with (String.length code) by lia.
    apply substring_append_middle.
Qed.

Lemma substring_append_left (s t : string) :
  ∀ n m, (n + m ≤ String.length s)%nat →
    String.substring n m (s +:+ t) = String.substring n m s.
Proof.
  induction s as [| a s IH]; intros n m Hle.
  - simpl in Hle. assert (n = 0 ∧ m = 0)%nat as [-> ->] by lia. by destruct t.
  - destruct n as [| n], m as [| m]; simpl in *; try done.
    + rewrite IH; [done | lia].
    + apply IH. lia.
    + apply IH. lia.
Qed.

Lemma fence_before (pre post code : string) (n : nat) :
  String.length pre = n →
  String.substring (n - 12) 12 pre = fence_open →
  String.substring (n - 12) 12 (pre +:+ code +:+ post) = fence_open.
Proof.
  intros <- Hfence.
  destruct (decide (12 ≤ String.length pre)%nat) as [Hle | Hgt].
  - rewrite substring_append_left; [done | lia].
  - exfalso. apply (f_equal String.length) in Hfence.
    assert (Hlen : ∀ s k m, (String.length (String.substring k m s) ≤ String.length s)%nat).
    { clear. induction s as [| a s IH]; intros [| k] [| m]; simpl; try lia.
      - specialize (IH 0%nat m). lia.
      - specialize (IH k 0%nat). lia.
      - specialize (IH k (S m)). lia. }
    specialize (Hlen pre (String.length pre - 12)%nat 12%nat).
    rewrite Hfence in Hlen. simpl in Hlen. lia.
Qed.

Lemma fence_after (pre post code : string) (n : nat) :
  String.length pre = n →
  String.substring 0 12 post = fence_close →
  String.substring (n + String.length code) 12 (pre +:+ code +:+ post)
  = fence_close.
Proof.
  intros <- Hfence.
  rewrite substring_append_skip.
  rewrite <- (Nat.add_0_r (String.length code)), substring_append_skip.
  done.
Qed.

(** X1. For every input, the description of each of the five tasks is the
    input with a fixed text before it and a fixed text after it, of the
    lengths [code_window] gives: its length is the input's plus those two,
    the input can be read back from it, and the input sits directly between
    the two fence lines of the template. *)
Theorem description_layout (code : string) :
  Forall2 (λ t w,
      String.length (description t) = (w.1 + String.length code + w.2)%nat
      ∧ extract_code w (description t) = code
      ∧ String.substring (w.1 - 12) 12 (description t) = fence_open
      ∧ String.substring (w.1 + String.length code) 12 (description t)
        = fence_close)
    (create_review_tasks code) code_window.
Proof.
  unfold create_review_tasks, code_window.
  repeat (apply Forall2_cons; split; [| try apply Forall2_nil_2]).
  all: split_and!.
  all: first [ by apply window
             | by apply fence_before
             | by apply fence_after ].
Qed.

(** X2. [run_code_review] calls [kickoff] once, on a crew that depends on
    the input only: its tasks are those of [create_review_tasks]; its agents
    are the tasks' agents, in the order of the tasks and without
    repetition; every task that a task names as context is a task of the
    crew; it is verbose.  An exception of [kickoff] is raised unchanged,
    and otherwise the result is [str] of what [kickoff] returned. *)
Theorem run_code_review_crew (code : string) :
  ∃ crew,
    tasks crew = create_review_tasks code
    ∧ agents crew = agent <$> tasks crew
    ∧ NoDup (agents crew)
    ∧ (∀ t d, t ∈ tasks crew → d ∈ declared_dependencies t → d ∈ tasks crew)
    ∧ crew_verbose crew = true
    ∧ ∀ (CrewOutput : Type) (kickoff : CrewT → Exception + CrewOutput)
        (str : CrewOutput → string),
        run_code_review CrewOutput kickoff str code
        = match kickoff crew with
          | inl e => inl e
          | inr result => inr (str result)
          end.
Proof.
  eexists (Crew _ _ _). split_and!; [reflexivity | reflexivity | | | reflexivity | reflexivity].
  - simpl. apply NoDup_fmap_1 with (f := role). by compute_done.
  - simpl. intros t d Ht Hd. unfold create_review_tasks in *.
    repeat (apply elem_of_cons in Ht as [-> | Ht]);
      try (by apply elem_of_nil in Hd); try (by apply elem_of_nil in Ht).
    simpl in Hd. unfold declared_dependencies in Hd. simpl in Hd.
    repeat (apply elem_of_cons in Hd as [-> | Hd]);
      [set_solver .. | by apply elem_of_nil in Hd].
Qed.

End CrewProperties.

(** ** Part 4: the web page, [app.py] *)

Module App.

Definition dq : string := Crew.dq.

(** The Streamlit calls of the script, as the elements they put on the
    page.  A [with] block holds the elements created inside it. *)
Module st.
#[local] Unset Elimination Schemes.
Inductive Element :=
  | set_page_config (page_title page_icon layout : string)
  | title (body : string)
  | markdown (body : string) (unsafe_allow_html : bool)
  | divider
  | columns (spec : list nat) (contents : list (list Element))
  | subheader (body : string)
  | selectbox (label : string) (options : list string)
  | text_area (label value : string) (height : nat) (help : string)
  | button (label type : string) (use_container_width : bool)
  | caption (body : string)
  | warning (body : string)
  | spinner (text : string) (body : list Element)
  | success (body : string)
  | error (body : string)
  | info (body : string)
  | expander (label : string) (body : list Element).
#[local] Set Elimination Schemes.
End st.

(** *** Python's [str.strip()]

    A [str] is held as its UTF-8 bytes.  [strip] removes, from both ends,
    the characters for which [str.isspace()] holds: U+0009..U+000D,
    U+001C..U+0020, U+0085, U+00A0, U+1680, U+2000..U+200A, U+2028, U+2029,
    U+202F, U+205F and U+3000, which are one, two or three bytes long. *)

Definition is_space1 (a : Ascii.ascii) : bool :=
  let x := Ascii.nat_of_ascii a in
  (9 <=? x) && (x <=? 13) || (28 <=? x) && (x <=? 32).

Definition is_space2 (a b : Ascii.ascii) : bool :=
  let x := Ascii.nat_of_ascii a in
  let y := Ascii.nat_of_ascii b in
  (x =? 194) && ((y =? 133) || (y =? 160)).

Definition is_space3 (a b c : Ascii.ascii) : bool :=
  let x := Ascii.nat_of_ascii a in
  let y := Ascii.nat_of_ascii b in
  let z := Ascii.nat_of_ascii c in
  (x =? 225) && (y =? 154) && (z =? 128)
  || (x =? 226) && (y =? 128)
     && ((128 <=? z) && (z <=? 138) || (z =? 168) || (z =? 169) || (z =? 175))
  || (x =? 226) && (y =? 129) && (z =? 159)
  || (x =? 227) && (y =? 128) && (z =? 128).

(** Drop the whitespace characters at the head of [l].  When [backwards],
    [l] is a reversed text, and so is each character in it. *)
Fixpoint skip_spaces (backwards : bool) (l : list Ascii.ascii) : list Ascii.ascii :=
  match l with
  | [] => []
  | a :: l1 =>
    if is_space1 a then skip_spaces backwards l1
    else
      match l1 with
      | [] => l
      | b :: l2 =>
        if (if backwards then is_space2 b a else is_space2 a b)
        then skip_spaces backwards l2
        else
          match l2 with
          | [] => l
          | c :: l3 =>
            if (if backwards then is_space3 c b a else is_space3 a b c)
            then skip_spaces backwards l3
            else l
          end
      end
  end.

Definition lstrip (l : list Ascii.ascii) : list Ascii.ascii := skip_spaces false l.

Definition rstrip (l : list Ascii.ascii) : list Ascii.ascii :=
  reverse (skip_spaces true (reverse l)).

Definition strip (s : string) : string :=
  String.string_of_list_ascii (rstrip (lstrip (String.list_ascii_of_string s))).

#[local] Open Scope string_scope.

(** *** The sample codes (app.py, lines 48-200) *)

Definition SAMPLE_DRUPAL_VULNERABLE : string :=
  "/**
 * Custom login handler for user authentication.
 */
function mymodule_login_handler($username, $password) {
  // Get user from database
  $query = " +:+ dq +:+ "SELECT * FROM users WHERE username = '" +:+ dq +:+ " . $username . " +:+ dq +:+ "'" +:+ dq +:+ ";
  $result = db_query($query);
  $user = $result->fetchObject();
  
  if ($user && $user->password == $password) {
    drupal_set_message(t(" +:+ dq +:+ "Welcome @name!" +:+ dq +:+ ", array('@name' => $username)));
    return TRUE;
  }
  else {
    drupal_set_message(t(" +:+ dq +:+ "Login failed for @name" +:+ dq +:+ ", array('@name' => $username)), 'error');
    return FALSE;
  }
}

/**
 * Custom page callback with XSS vulnerability.
 */
function mymodule_page_callback() {
  $output = '<div class=" +:+ dq +:+ "my-content" +:+ dq +:+ ">';
  $output .= '<h1>' . $_GET['title'] . '</h1>';
  $output .= '</div>';
  return $output;
}".

Definition SAMPLE_PYTHON_VULNERABLE : string :=
  "def login(username, password):
    # Check if user exists
    query = f" +:+ dq +:+ "SELECT * FROM users WHERE username = '{username}'" +:+ dq +:+ "
    user = database.execute(query)
    
    if user and user.password == password:
        print(f" +:+ dq +:+ "Welcome {username}!" +:+ dq +:+ ")
        return True
    else:
        print(f" +:+ dq +:+ "Login failed for {username}" +:+ dq +:+ ")
        return False

def get_user_data(user_id):
    data = database.execute(f" +:+ dq +:+ "SELECT * FROM sensitive_data WHERE id = {user_id}" +:+ dq +:+ ")
    return data".

Definition SAMPLE_FRONTEND_ISSUES : string :=
  "<div onclick=" +:+ dq +:+ "handleClick()" +:+ dq +:+ ">
  <img src=" +:+ dq +:+ "banner.jpg" +:+ dq +:+ ">
  <div class=" +:+ dq +:+ "btn" +:+ dq +:+ " onclick=" +:+ dq +:+ "submit()" +:+ dq +:+ ">Click Here</div>
  <input type=" +:+ dq +:+ "text" +:+ dq +:+ " placeholder=" +:+ dq +:+ "Enter email" +:+ dq +:+ ">
  <div style=" +:+ dq +:+ "color: #999; background: #fff;" +:+ dq +:+ ">Low contrast text</div>
</div>

<script>
var data = [];
$('.item').each(function() {
  data.push($(this).html());
});

function handleClick() {
  document.location = userInput;
}
</script>

<style>
.btn { color: red !important; }
.header { color: blue !important; }
#main .content .wrapper .inner { padding: 10px; }
</style>".

Definition SAMPLE_DRUPAL_CLEAN : string :=
  "<?php

namespace Drupal\mymodule\Controller;

use Drupal\Core\Controller\ControllerBase;
use Drupal\Core\Database\Connection;
use Drupal\Core\Session\AccountProxyInterface;
use Symfony\Component\DependencyInjection\ContainerInterface;

/**
 * Controller for user data display.
 */
class UserDataController extends ControllerBase {

  /**
   * The database connection.
   *
   * @var \Drupal\Core\Database\Connection
   */
  protected $database;

  /**
   * The current user.
   *
   * @var \Drupal\Core\Session\AccountProxyInterface
   */
  protected $currentUser;

  /**
   * Constructs a UserDataController object.
   */
  public function __construct(Connection $database, AccountProxyInterface $current_user) {
    $this->database = $database;
    $this->currentUser = $current_user;
  }

  /**
   * {@inheritdoc}
   */
  public static function create(ContainerInterface $container) {
    return new static(
      $container->get('database'),
      $container->get('current_user')
    );
  }

  /**
   * Displays user profile data.
   *
   * @return array
   *   A render array.
   */
  public function content() {
    // Check access.
    if (!$this->currentUser->hasPermission('view own profile')) {
      throw new AccessDeniedHttpException();
    }

    // Use parameterized query.
    $query = $this->database->select('user_data', 'ud')
      ->fields('ud', ['data_value'])
      ->condition('uid', $this->currentUser->id())
      ->execute();

    $items = [];
    foreach ($query as $record) {
      $items[] = Html::escape($record->data_value);
    }

    return [
      '#theme' => 'item_list',
      '#items' => $items,
      '#cache' => [
        'contexts' => ['user'],
        'tags' => ['user:' . $this->currentUser->id()],
      ],
    ];
  }

}".

(** *** The page (app.py, lines 15-42 and 206-315) *)

Definition header_text : string :=
  "
**A Multi-Agent Code Analysis System** built by [Patricia Chang](https://www.linkedin.com/in/patriciachang23)

This tool demonstrates agentic AI using five specialized AI agents working together:

| Agent | Focus Area |
|-------|------------|
| 🎯 **Code Review Engineer** | Code quality, Drupal best practices, coding standards |
| 🔒 **Security Analyst** | Vulnerabilities, OWASP Top 10, Drupal security |
| 🎨 **Frontend Review Engineer** | Accessibility (WCAG), CSS/JS, Twig templates |
| ⚙️ **Infrastructure Analyst** | Caching, config management, performance, deployment |
| 👤 **Technical Lead Reviewer** | Synthesizes all feedback, makes final decision |

Paste your code below and click **Run Review** to see the agents collaborate.
".

Definition agents_help_text : string :=
  "
            **🎯 Code Review Engineer**
            - Code readability and structure
            - Naming conventions
            - Drupal coding standards
            - Hook implementations
            - Deprecated API usage
            - Workspaces module compatibility
            
            **🔒 Security Analyst**
            - SQL injection
            - Cross-site scripting (XSS)
            - CSRF vulnerabilities
            - Access control issues
            - Drupal Form API security
            - Input sanitization
            
            **🎨 Frontend Review Engineer**
            - WCAG 2.1 AA accessibility
            - Semantic HTML
            - CSS best practices
            - JavaScript patterns
            - Twig template quality
            - Performance concerns
            
            **⚙️ Infrastructure Analyst**
            - Cache tags and contexts
            - Configuration management
            - Database query efficiency
            - Deployment readiness
            - Environment-specific code
            
            **👤 Technical Lead Reviewer**
            - Synthesizes all feedback
            - Prioritizes issues
            - Makes final APPROVE/REQUEST CHANGES/REJECT decision
            ".

Definition footer_text : string :=
  "
<div style=" +:+ dq +:+ "text-align: center; color: gray; font-size: 0.9em;" +:+ dq +:+ ">
    Built with CrewAI + Claude | 
    <a href=" +:+ dq +:+ "https://patricia-chang-portfolio.netlify.app" +:+ dq +:+ " target=" +:+ dq +:+ "_blank" +:+ dq +:+ ">Portfolio</a> | 
    <a href=" +:+ dq +:+ "https://github.com/patriciachang" +:+ dq +:+ " target=" +:+ dq +:+ "_blank" +:+ dq +:+ ">GitHub</a> |
    <a href=" +:+ dq +:+ "https://www.linkedin.com/in/patriciachang23" +:+ dq +:+ " target=" +:+ dq +:+ "_blank" +:+ dq +:+ ">LinkedIn</a>
</div>
".

Definition sample_options : list string :=
  ["-- Select a sample --";
   "🔴 Drupal - Vulnerable Code (SQL Injection + XSS)";
   "🔴 Python - Vulnerable Code (SQL Injection)";
   "🟡 Frontend - Accessibility Issues";
   "🟢 Drupal - Clean Code Example"].

(** The text the code input starts from, by the sample selected. *)
Definition initial_code (sample_option : string) : string :=
  if decide (sample_option = "🔴 Drupal - Vulnerable Code (SQL Injection + XSS)")
  then SAMPLE_DRUPAL_VULNERABLE
  else if decide (sample_option = "🔴 Python - Vulnerable Code (SQL Injection)")
  then SAMPLE_PYTHON_VULNERABLE
  else if decide (sample_option = "🟡 Frontend - Accessibility Issues")
  then SAMPLE_FRONTEND_ISSUES
  else if decide (sample_option = "🟢 Drupal - Clean Code Example")
  then SAMPLE_DRUPAL_CLEAN
  else "# Paste your code here...".

(** [str(e)] for an exception raised with one message. *)
Definition str (e : Crew.Exception) : string := Crew.exc_message e.

(** The results column once the widgets have returned: [run_review] is what
    the button returned, [code_input] what the text area returned. *)
Definition review_results (run_code_review : string → Crew.Exception + string)
    (run_review : bool) (code_input : string) : list st.Element :=
  if run_review then
    if String.eqb (strip code_input) ""
       || String.eqb (strip code_input) "# Paste your code here..."
    then [st.warning "Please paste some code to review!"]
    else
      [st.spinner "🤖 Agents are reviewing your code... (this takes 60-90 seconds)"
         match run_code_review code_input with
         | inr result => [st.success "Review complete!"; st.markdown result false]
         | inl e =>
           [st.error ("An error occurred: " +:+ str e);
            st.info "Make sure your ANTHROPIC_API_KEY is set correctly in the .env file"]
         end]
  else
    [st.info "👈 Paste code and click **Run Review** to start";
     st.expander "ℹ️ What each agent reviews" [st.markdown agents_help_text false]].

(** What the widgets return in one run of the script: the option selected,
    the text typed into the text area if the user typed any, and whether
    the button was clicked. *)
Record Session := mkSession {
  selected : string;
  typed : option string;
  clicked : bool
}.

(** The text area returns its initial value until the user types. *)
Definition code_input (s : Session) : string :=
  default (initial_code (selected s)) (typed s).

Definition page (run_code_review : string → Crew.Exception + string)
    (s : Session) : list st.Element :=
  [st.set_page_config "AI Code Review Crew" "🔍" "wide";
   st.title "🔍 AI Code Review Crew";
   st.markdown header_text false;
   st.divider;
   st.columns [1; 1]
     [[st.subheader "📝 Code Input";
       st.selectbox "Load a sample (or paste your own below):" sample_options;
       st.text_area "Code to review:" (initial_code (selected s)) 400
         "Paste PHP, JavaScript, Python, Twig, CSS, or any code you want reviewed";
       st.button "🚀 Run Review" "primary" true;
       st.caption "⏱️ Review typically takes 60-90 seconds (5 agents analyzing)"];
      st.subheader "📋 Review Results"
      :: review_results run_code_review (clicked s) (code_input s)];
   st.divider;
   st.markdown footer_text true].

Section Script.
(** What the script imports and does not define, as in [Crew]. *)
Variable load_dotenv : gmap string string → gmap string string.
Variable CrewOutput : Type.
Variable kickoff : Crew.CrewT → Crew.Exception + CrewOutput.
Variable crew_str : CrewOutput → string.

(** One run of the script in a process whose environment is [environ]:
    [from crew import run_code_review] runs first, and an exception it
    raises ends the script before any element is created. *)
Definition app (environ : gmap string string) (s : Session)
    : Crew.Exception + list st.Element :=
  match Crew.import_crew load_dotenv CrewOutput kickoff crew_str environ with
  | inl e => inl e
  | inr m => inr (page (Crew.m_run_code_review m) s)
  end.
End Script.

End App.

(** ** Properties of the web page *)

Module AppFacts.
Import App.

(** The bytes of one whitespace character, in order, or back to front when
    [backwards]. *)
Definition space_char (backwards : bool) (u : list Ascii.ascii) : Prop :=
  match (if backwards then reverse u else u) with
  | [a] => is_space1 a
  | [a; b] => is_space2 a b
  | [a; b; c] => is_space3 a b c
  | _ => False
  end.

(** A text made of whitespace characters only (the empty text is one). *)
Definition blank_list (backwards : bool) (l : list Ascii.ascii) : Prop :=
  ∃ us, Forall (space_char backwards) us ∧ l = concat us.

Definition blank (s : string) : Prop :=
  blank_list false (String.list_ascii_of_string s).

(** The inputs that are the placeholder, or nothing, up to whitespace
    around. *)
Definition placeholder_or_blank (s : string) : Prop :=
  blank s
  ∨ ∃ l r, blank l ∧ blank r
      ∧ s = (l +:+ "# Paste your code here..." +:+ r)%string.

(** What the results column shows when a review has run. *)
Definition review_outcome (outcome : Crew.Exception + string) : st.Element :=
  st.spinner "🤖 Agents are reviewing your code... (this takes 60-90 seconds)"
    match outcome with
    | inr result => [st.success "Review complete!"; st.markdown result false]
    | inl e =>
      [st.error ("An error occurred: " +:+ Crew.exc_message e)%string;
       st.info "Make sure your ANTHROPIC_API_KEY is set correctly in the .env file"]
    end.

(** Every element of a page, those inside columns, spinners and expanders
    included. *)
Fixpoint elements (e : st.Element) : list st.Element :=
  e :: match e with
       | st.columns _ contents => contents ≫= (λ c, c ≫= elements)
       | st.spinner _ body => body ≫= elements
       | st.expander _ body => body ≫= elements
       | _ => []
       end.

Definition renders_html (e : st.Element) : bool :=
  match e with
  | st.markdown _ unsafe_allow_html => unsafe_allow_html
  | _ => false
  end.

(** The results column of a page: the second of its two columns. *)
Definition results_column (pg : list st.Element) : list st.Element :=
  pg ≫= (λ e, match e with
               | st.columns _ [_; col2] => col2
               | _ => []
               end).

Ltac space_arith :=
  unfold is_space1, is_space2, is_space3 in *; cbv zeta in *;
  repeat match goal with
         | H : Is_true _ |- _ => apply Is_true_true in H
         | H : _ = false |- _ => apply not_true_iff_false in H
         | |- _ = false => apply not_true_iff_false
         | |- Is_true _ => apply Is_true_true
         end;
  repeat (rewrite andb_true_iff in * || rewrite orb_true_iff in *);
  rewrite ?Nat.eqb_eq, ?Nat.leb_le in *;
  lia.

Lemma space2_head a b : is_space2 a b → is_space1 a = false.
Proof. intros H. space_arith. Qed.

Lemma space2_last a b : is_space2 a b → is_space1 b = false.
Proof. intros H. space_arith. Qed.

Lemma space3_head a b c :
  is_space3 a b c → is_space1 a = false ∧ ∀ x, is_space2 a x = false.
Proof. intros H. split; [| intros x]; space_arith. Qed.

Lemma space3_last a b c :
  is_space3 a b c → is_space1 c = false ∧ is_space2 b c = false.
Proof. intros H. split; space_arith. Qed.

Lemma skip_spaces_char d u l :
  space_char d u → skip_spaces d (u ++ l) = skip_spaces d l.
Proof.
  unfold space_char. destruct d.
  - rewrite <- (reverse_involutive u) at 2.
    generalize (reverse u). intros [| a [| b [| c [| x r]]]] Hu; try done.
    + apply Is_true_true in Hu. simpl. by rewrite Hu.
    + cbn. rewrite (space2_last _ _ Hu). by rewrite (proj1 (Is_true_true _) Hu).
    + cbn. destruct (space3_last _ _ _ Hu) as [-> ->].
      by rewrite (proj1 (Is_true_true _) Hu).
  - destruct u as [| a [| b [| c [| x r]]]]; intros Hu; try done.
    + apply Is_true_true in Hu. simpl. by rewrite Hu.
    + simpl. rewrite (space2_head _ _ Hu). by rewrite (proj1 (Is_true_true _) Hu).
    + simpl. destruct (space3_head _ _ _ Hu) as [-> ->].
      by rewrite (proj1 (Is_true_true _) Hu).
Qed.

Lemma skip_spaces_blank d l rest :
  blank_list d l → skip_spaces d (l ++ rest) = skip_spaces d rest.
Proof.
  intros (us & Hus & ->).
  induction Hus as [| u us Hu _ IH]; [done |].
  simpl. rewrite <- (assoc_L (++)). by rewrite skip_spaces_char.
Qed.

Lemma skip_spaces_decompose d l :
  ∃ us, Forall (space_char d) us ∧ l = concat us ++ skip_spaces d l.
Proof.
  remember (length l) as n eqn:Hn.
  revert l Hn. induction (lt_wf n) as [n _ IH]. intros l ->.
  assert (Hrec : ∀ u l', l = u ++ l' → u ≠ [] → space_char d u →
            skip_spaces d l = skip_spaces d l' →
            ∃ us, Forall (space_char d) us ∧ l = concat us ++ skip_spaces d l).
  { intros u l' -> Hne Hu Hskip.
    destruct (IH (length l')) with (l := l') as (us & Hus & Hl'); [| done |].
    { rewrite length_app. destruct u; [done | simpl; lia]. }
    exists (u :: us). split; [by constructor |].
    rewrite Hskip. simpl. rewrite <- (assoc_L (++)). by rewrite <- Hl'. }
  assert (Hstop : skip_spaces d l = l →
            ∃ us, Forall (space_char d) us ∧ l = concat us ++ skip_spaces d l).
  { intros ->. by exists []. }
  clear IH.
  destruct l as [| a l1]; [by apply Hstop |].
  destruct (is_space1 a) eqn:H1.
  { apply (Hrec [a] l1); [done | done | |].
    - destruct d; cbn; by rewrite H1.
    - simpl. by rewrite H1. }
  destruct l1 as [| b l2]; [apply Hstop; simpl; by rewrite H1 |].
  destruct (if d then is_space2 b a else is_space2 a b) eqn:H2.
  { apply (Hrec [a; b] l2); [done | done | |].
    - destruct d; cbn; by rewrite H2.
    - simpl. by rewrite H1, H2. }
  destruct l2 as [| c l3]; [apply Hstop; simpl; by rewrite H1, H2 |].
  destruct (if d then is_space3 c b a else is_space3 a b c) eqn:H3.
  { apply (Hrec [a; b; c] l3); [done | done | |].
    - destruct d; cbn; by rewrite H3.
    - simpl. by rewrite H1, H2, H3. }
  apply Hstop. simpl. by rewrite H1, H2, H3.
Qed.

Lemma space_char_reverse d u : space_char d u → space_char (negb d) (reverse u).
Proof.
  unfold space_char. destruct d; simpl; [done |]. by rewrite reverse_involutive.
Qed.

Lemma reverse_concat {A} (us : list (list A)) :
  reverse (concat us) = concat (reverse (reverse <$> us)).
Proof.
  induction us as [| u us IH]; [done |].
  simpl. rewrite reverse_app, IH, reverse_cons, concat_app. simpl.
  by rewrite (right_id_L [] (++)).
Qed.

Lemma blank_list_reverse d l : blank_list d l → blank_list (negb d) (reverse l).
Proof.
  intros (us & Hus & ->). exists (reverse (reverse <$> us)).
  split; [| apply reverse_concat].
  apply Forall_reverse, Forall_fmap.
  eapply Forall_impl; [done |]. intros u. apply space_char_reverse.
Qed.

Lemma blank_list_app d l1 l2 :
  blank_list d l1 → blank_list d l2 → blank_list d (l1 ++ l2).
Proof.
  intros (us & Hus & ->) (vs & Hvs & ->). exists (us ++ vs).
  split; [by apply Forall_app | by rewrite concat_app].
Qed.

Lemma blank_list_nil d : blank_list d [].
Proof. by exists []. Qed.

Lemma list_ascii_of_string_app (s t : string) :
  String.list_ascii_of_string (s +:+ t)
  = String.list_ascii_of_string s ++ String.list_ascii_of_string t.
Proof. induction s as [| a s IH]; [done |]. simpl. by rewrite IH. Qed.

Lemma string_of_list_ascii_app (l k : list Ascii.ascii) :
  String.string_of_list_ascii (l ++ k)
  = (String.string_of_list_ascii l +:+ String.string_of_list_ascii k)%string.
Proof. induction l as [| a l IH]; [done |]. simpl. by rewrite IH. Qed.

Lemma blank_string_of_list l :
  blank_list false l → blank (String.string_of_list_ascii l).
Proof. unfold blank. by rewrite String.list_ascii_of_string_of_list_ascii. Qed.

(** [strip] removes a blank text from each end, and nothing else. *)
Lemma strip_decompose (s : string) :
  ∃ l r, blank l ∧ blank r ∧ s = (l +:+ strip s +:+ r)%string.
Proof.
  destruct (skip_spaces_decompose false (String.list_ascii_of_string s))
    as (us & Hus & Hs).
  fold (lstrip (String.list_ascii_of_string s)) in Hs.
  destruct (skip_spaces_decompose true
              (reverse (lstrip (String.list_ascii_of_string s))))
    as (vs & Hvs & Hm).
  apply (f_equal reverse) in Hm.
  rewrite reverse_involutive, reverse_app in Hm.
  fold (rstrip (lstrip (String.list_ascii_of_string s))) in Hm.
  exists (String.string_of_list_ascii (concat us)),
         (String.string_of_list_ascii (reverse (concat vs))).
  split_and!.
  - apply blank_string_of_list. by exists us.
  - apply blank_string_of_list.
    apply (blank_list_reverse true). by exists vs.
  - unfold strip. rewrite <- !string_of_list_ascii_app, <- Hm, <- Hs.
    by rewrite String.string_of_list_ascii_of_string.
Qed.

Lemma strip_blank (s : string) : strip s = ""%string ↔ blank s.
Proof.
  split.
  - intros Hs. destruct (strip_decompose s) as (l & r & Hl & Hr & Heq).
    rewrite Hs in Heq. unfold blank. rewrite Heq.
    rewrite !list_ascii_of_string_app. simpl.
    by apply blank_list_app.
  - intros Hs. unfold strip, lstrip.
    rewrite <- (right_id_L [] (++) (String.list_ascii_of_string s)).
    by rewrite (skip_spaces_blank _ _ _ Hs).
Qed.

Lemma strip_placeholder (s : string) :
  strip s = "# Paste your code here..."%string
  ↔ ∃ l r, blank l ∧ blank r
      ∧ s = (l +:+ "# Paste your code here..." +:+ r)%string.
Proof.
  split.
  - intros Hs. destruct (strip_decompose s) as (l & r & Hl & Hr & Heq).
    rewrite Hs in Heq. by exists l, r.
  - intros (l & r & Hl & Hr & ->). unfold strip, lstrip, rstrip.
    rewrite !list_ascii_of_string_app.
    rewrite (skip_spaces_blank _ _ _ Hl).
    change (skip_spaces false
              (String.list_ascii_of_string "# Paste your code here..."
               ++ String.list_ascii_of_string r))
      with (String.list_ascii_of_string "# Paste your code here..."
            ++ String.list_ascii_of_string r).
    rewrite reverse_app.
    rewrite (skip_spaces_blank _ _ _ (blank_list_reverse false _ Hr)).
    by vm_compute.
Qed.

Lemma refused_iff (s : string) :
  String.eqb (strip s) "" || String.eqb (strip s) "# Paste your code here..."
  = true ↔ placeholder_or_blank s.
Proof.
  rewrite orb_true_iff, !String.eqb_eq, strip_blank, strip_placeholder. done.
Qed.

(** X3. When the button has been clicked, the results column shows the
    warning, and [run_code_review] is not called, exactly when the input is
    made of whitespace only or is the placeholder with whitespace around
    it; every other input is passed to [run_code_review] as it was typed,
    untrimmed, and the column shows the review, or the message of the
    exception it raised. *)
Theorem review_guard (run_code_review : string → Crew.Exception + string)
    (code_input : string) :
  (placeholder_or_blank code_input
   ∧ review_results run_code_review true code_input
     = [st.warning "Please paste some code to review!"])
  ∨ (¬ placeholder_or_blank code_input
     ∧ review_results run_code_review true code_input
       = [review_outcome (run_code_review code_input)]).
Proof.
  unfold review_results.
  destruct (String.eqb (strip code_input) ""
            || String.eqb (strip code_input) "# Paste your code here...")
    eqn:Hguard.
  - left. split; [by apply refused_iff | done].
  - right. split; [| done].
    intros Href. apply refused_iff in Href. congruence.
Qed.

Lemma review_results_accepted (run_code_review : string → Crew.Exception + string)
    (code_input : string) :
  String.eqb (strip code_input) ""
  || String.eqb (strip code_input) "# Paste your code here..." = false →
  review_results run_code_review true code_input
  = [review_outcome (run_code_review code_input)].
Proof. intros Hguard. unfold review_results. by rewrite Hguard. Qed.

(** X4. When the button is clicked before anything has been typed, the
    input is what the selector loaded: with one of the four sample options
    selected it is that option's sample, and the sample is reviewed; with
    anything else selected (the first option, [-- Select a sample --]) it
    is the placeholder, and only the warning is shown. *)
Theorem untouched_input (run_code_review : string → Crew.Exception + string)
    (sample_option : string) :
  let input := code_input (mkSession sample_option None true) in
  ((sample_option, input)
     ∈ zip (drop 1 sample_options)
           [SAMPLE_DRUPAL_VULNERABLE; SAMPLE_PYTHON_VULNERABLE;
            SAMPLE_FRONTEND_ISSUES; SAMPLE_DRUPAL_CLEAN]
   ∧ review_results run_code_review true input
     = [review_outcome (run_code_review input)])
  ∨ (sample_option ∉ drop 1 sample_options
     ∧ input = "# Paste your code here..."%string
     ∧ review_results run_code_review true input
       = [st.warning "Please paste some code to review!"]).
Proof.
  unfold code_input, initial_code. simpl.
  destruct (decide (sample_option = "🔴 Drupal - Vulnerable Code (SQL Injection + XSS)"%string)) as [-> | H1].
  { left. split; [apply list_elem_of_here |].
    by apply review_results_accepted. }
  destruct (decide (sample_option = "🔴 Python - Vulnerable Code (SQL Injection)"%string)) as [-> | H2].
  { left. split; [do 1 apply list_elem_of_further; apply list_elem_of_here |].
    by apply review_results_accepted. }
  destruct (decide (sample_option = "🟡 Frontend - Accessibility Issues"%string)) as [-> | H3].
  { left. split; [do 2 apply list_elem_of_further; apply list_elem_of_here |].
    by apply review_results_accepted. }
  destruct (decide (sample_option = "🟢 Drupal - Clean Code Example"%string)) as [-> | H4].
  { left. split; [do 3 apply list_elem_of_further; apply list_elem_of_here |].
    by apply review_results_accepted. }
  right. split_and!; [| done | done].
  rewrite !elem_of_cons, elem_of_nil. tauto.
Qed.

(** X5. Whatever the session and whatever [run_code_review] returns or
    raises, the only element of the page rendered with
    [unsafe_allow_html=True] is the fixed footer: neither the review text
    nor an exception message is ever rendered as raw HTML. *)
Theorem only_footer_renders_html
    (run_code_review : string → Crew.Exception + string) (s : Session) :
  filter renders_html (page run_code_review s ≫= elements)
  = [st.markdown footer_text true].
Proof.
  unfold page, review_results.
  destruct (clicked s); [| reflexivity].
  destruct (String.eqb (strip (code_input s)) ""
            || String.eqb (strip (code_input s)) "# Paste your code here...");
    [reflexivity |].
  destruct (run_code_review (code_input s)); reflexivity.
Qed.

Section ScriptFacts.
Variable load_dotenv : gmap string string → gmap string string.
Variable CrewOutput : Type.
Variable kickoff : Crew.CrewT → Crew.Exception + CrewOutput.
Variable crew_str : CrewOutput → string.

(** X6. The script renders a page exactly when, once the .env file has
    been loaded, ANTHROPIC_API_KEY is set to a non-empty value (any
    non-empty value, its validity is not checked here).  Otherwise the
    import of [crew] raises the ValueError and the script ends before any
    element, even the title, is created. *)
Theorem app_requires_api_key (environ : gmap string string) (s : Session) :
  let key := Crew.getenv (load_dotenv environ) "ANTHROPIC_API_KEY" in
  ((key = None ∨ key = Some ""%string)
   ∧ app load_dotenv CrewOutput kickoff crew_str environ s
     = inl (Crew.ValueError "ANTHROPIC_API_KEY not found. Check your .env file!"))
  ∨ ((∃ v, key = Some v ∧ v ≠ ""%string)
     ∧ app load_dotenv CrewOutput kickoff crew_str environ s
       = inr (page (Crew.run_code_review CrewOutput kickoff crew_str) s)).
Proof.
  unfold app, Crew.import_crew. simpl.
  destruct (Crew.getenv (load_dotenv environ) "ANTHROPIC_API_KEY")
    as [v |] eqn:Hkey; simpl.
  - destruct (decide (v = ""%string)) as [-> | Hne].
    + left. split; [by right | done].
    + right. split; [by exists v |].
      by rewrite bool_decide_eq_false_2.
  - left. split; [by left | done].
Qed.

(** X7. With the key set, the button clicked and an input that the guard
    lets through, the results column shows, under its heading, one spinner
    that holds the outcome of [kickoff] on the crew built for the input as
    typed: the success note and the text of the crew's output, or, when
    [kickoff] raised, the error with the exception's message and the hint
    about the key.  An exception of [kickoff] never ends the script. *)
Theorem review_shown (environ : gmap string string) (s : Session)
    (key : string) :
  Crew.getenv (load_dotenv environ) "ANTHROPIC_API_KEY" = Some key →
  key ≠ ""%string →
  clicked s = true →
  strip (code_input s) ≠ ""%string →
  strip (code_input s) ≠ "# Paste your code here..."%string →
  ∃ pg,
    app load_dotenv CrewOutput kickoff crew_str environ s = inr pg
    ∧ results_column pg =
        [st.subheader "📋 Review Results";
         review_outcome
           match kickoff
                   (Crew.Crew
                      [Crew.code_review_engineer; Crew.security_analyst;
                       Crew.frontend_engineer; Crew.infrastructure_analyst;
                       Crew.tech_lead_reviewer]
                      (Crew.create_review_tasks (code_input s)) true) with
           | inl e => inl e
           | inr result => inr (crew_str result)
           end].
Proof.
  intros Hkey Hne Hclick Hs1 Hs2.
  eexists. split.
  - unfold app, Crew.import_crew. simpl. rewrite Hkey. simpl.
    by rewrite bool_decide_eq_false_2.
  - unfold page, results_column. simpl. rewrite Hclick.
    rewrite review_results_accepted.
    + by rewrite (right_id_L [] (++)).
    + apply orb_false_iff. by rewrite !String.eqb_neq.
Qed.
End ScriptFacts.

(** A run with the key set, a short input typed and a [kickoff] that
    raises. *)
Lemma review_shown_witness :
  ∃ pg,
    app (λ environ, environ) string
        (λ _, inl (Crew.mkException "AuthenticationError" "invalid x-api-key"))
        (λ out, out)
        {[ "ANTHROPIC_API_KEY"%string := "sk-test"%string ]}
        (mkSession "-- Select a sample --" (Some " x = 1 "%string) true)
    = inr pg
    ∧ results_column pg =
        [st.subheader "📋 Review Results";
         review_outcome
           (inl (Crew.mkException "AuthenticationError" "invalid x-api-key"))].
Proof.
  apply (review_shown (λ environ, environ) string
           (λ _, inl (Crew.mkException "AuthenticationError" "invalid x-api-key"))
           (λ out, out)
           {[ "ANTHROPIC_API_KEY"%string := "sk-test"%string ]}
           (mkSession "-- Select a sample --" (Some " x = 1 "%string) true)
           "sk-test"%string).
  - reflexivity.
  - discriminate.
  - reflexivity.
  - vm_compute. discriminate.
  - vm_compute. discriminate.
Defined.

End AppFacts.
